(** * Rastreamento de produtos agricolas: a model of fiap.py

    The program is a console application over two database tables
    (products and vehicles).  This development embeds it shallowly:

    - text is a [string] of code points below 256 (Latin-1), which covers
      every literal of the program, including the accented negative answer;
      [lower], [isdigit] and [int_de_str] follow Python's [str.lower],
      [str.isdigit] and [int] on that range, the limit of [int] on the
      number of digits included;
    - a number read from a float column or by [float] is a [num]: a
      rational, an infinity or NaN, compared the way Python compares floats
      (and ints with floats), that is exactly;
    - the console, the database and the files written are explicit state
      ([mundo]); an operation is a function from a world to a result and a
      world, and the result is a returned value or a raised exception. *)

From Stdlib Require Import ZArith QArith Bool List Ascii String Lia.
From Stdlib Require Import DecimalString.
Import ListNotations.

Local Open Scope string_scope.
Local Open Scope list_scope.
Local Open Scope Z_scope.

(* ------------------------------------------------------------------ *)
(** ** Numbers as Python compares them *)

Inductive num : Type :=
| Fin (q : Q)
| MaisInf
| MenosInf
| NaN.

(** [a <= b] on floats: false as soon as one side is NaN. *)
Definition num_le (a b : num) : bool :=
  match a, b with
  | NaN, _ | _, NaN => false
  | MenosInf, _ => true
  | _, MaisInf => true
  | Fin x, Fin y => Qle_bool x y
  | _, _ => false
  end.

(** [a == b] on floats: NaN is equal to nothing, not even to itself. *)
Definition num_eq (a b : num) : bool :=
  match a, b with
  | Fin x, Fin y => Qeq_bool x y
  | MaisInf, MaisInf => true
  | MenosInf, MenosInf => true
  | _, _ => false
  end.

(** [a < b] on floats. *)
Definition num_lt (a b : num) : bool :=
  match a, b with
  | NaN, _ | _, NaN => false
  | Fin x, Fin y => negb (Qle_bool y x)
  | MenosInf, MenosInf => false
  | MenosInf, _ => true
  | MaisInf, _ => false
  | Fin _, MaisInf => true
  | Fin _, MenosInf => false
  end.

(** [a > b] is [b < a]. *)
Definition num_gt (a b : num) : bool := num_lt b a.

Definition num_de_Z (z : Z) : num := Fin (inject_Z z).

(* ------------------------------------------------------------------ *)
(** ** The two record types, as rows of the tables *)

Module Produto.
Record linha : Type := Linha {
  id_produto : Z;
  produto : string;
  quantidade : Z;
  origem : string;
  destino : string;
  temperatura_minima : num;
  temperatura_maxima : num;
  ventilacao : string;
  protecao_solar : string
}.
End Produto.

Module Veiculo.
Record linha : Type := Linha {
  id_veiculo : Z;
  capacidade : Z;
  temperatura : num;
  ventilacao : string;
  protecao_solar : string
}.
End Veiculo.

(** Booleans are persisted as one of two literals
    ([ 'SIM' if ventilacao else 'NAO' ] in both registrations). *)
Definition sim_ou_nao (b : bool) : string := if b then "SIM" else "NAO".

Definition flag_valida (s : string) : Prop := s = "SIM" \/ s = "NAO".

(* ------------------------------------------------------------------ *)
(** ** The per-vehicle loop of comparar_veiculo *)

Section Comparacao.

Variable p : Produto.linha.

Definition capacidade_ok (v : Veiculo.linha) : bool :=
  Produto.quantidade p <=? Veiculo.capacidade v.

(** [temperatura_minima <= veiculo['temperatura'] <= temperatura_maxima] *)
Definition temperatura_ok (v : Veiculo.linha) : bool :=
  num_le (Produto.temperatura_minima p) (Veiculo.temperatura v)
  && num_le (Veiculo.temperatura v) (Produto.temperatura_maxima p).

Definition ventilacao_ok (v : Veiculo.linha) : bool :=
  ((Produto.ventilacao p =? "SIM") && (Veiculo.ventilacao v =? "SIM"))%string
  || ((Produto.ventilacao p =? "NAO") && (Veiculo.ventilacao v =? "NAO"))%string.

Definition protecao_solar_ok (v : Veiculo.linha) : bool :=
  ((Produto.protecao_solar p =? "SIM") && (Veiculo.protecao_solar v =? "SIM"))%string
  || ((Produto.protecao_solar p =? "NAO") && (Veiculo.protecao_solar v =? "NAO"))%string.

(** The test of the [if] inside the loop. *)
Definition condicoes_atendidas (v : Veiculo.linha) : bool :=
  capacidade_ok v && temperatura_ok v && ventilacao_ok v && protecao_solar_ok v.

(** [for idx, veiculo in veiculo_df.iterrows(): ... return True]: the rows
    are visited in the order the query returned them, and the loop is left
    at the first row that passes the test.  [Some v] is the row whose
    details are printed before [return True]; [None] is falling out of the
    loop. *)
Fixpoint comparar_veiculo_laco (veiculos : list Veiculo.linha)
  : option Veiculo.linha :=
  match veiculos with
  | [] => None
  | v :: resto =>
      if condicoes_atendidas v then Some v else comparar_veiculo_laco resto
  end.

(** The four predicates in the words of the specification. *)
Definition compativel (v : Veiculo.linha) : Prop :=
  Produto.quantidade p <= Veiculo.capacidade v
  /\ (num_le (Produto.temperatura_minima p) (Veiculo.temperatura v) = true
      /\ num_le (Veiculo.temperatura v) (Produto.temperatura_maxima p) = true)
  /\ Veiculo.ventilacao v = Produto.ventilacao p
  /\ Veiculo.protecao_solar v = Produto.protecao_solar p.

End Comparacao.

(* ------------------------------------------------------------------ *)
(** ** Text: the string methods the program calls *)

Definition no_intervalo (a b n : N) : bool := ((a <=? n) && (n <=? b))%N.

(** [str.lower] on one character: the letters A-Z and the accented capitals
    U+00C0..U+00DE (the multiplication sign U+00D7 apart) move 32 up. *)
Definition minuscula (c : ascii) : ascii :=
  let n := N_of_ascii c in
  if no_intervalo 65 90 n || (no_intervalo 192 222 n && negb (n =? 215)%N)
  then ascii_of_N (n + 32)
  else c.

Fixpoint lower (s : string) : string :=
  match s with
  | EmptyString => EmptyString
  | String c r => String (minuscula c) (lower r)
  end.

(** The characters [int] reads as digits: 0-9. *)
Definition digito_decimal (c : ascii) : bool :=
  no_intervalo 48 57 (N_of_ascii c).

(** The characters [str.isdigit] accepts: 0-9 and the superscript digits
    U+00B2, U+00B3 and U+00B9, which are digits but not decimals. *)
Definition digito (c : ascii) : bool :=
  let n := N_of_ascii c in
  digito_decimal c || (n =? 178)%N || (n =? 179)%N || (n =? 185)%N.

Fixpoint todos (f : ascii -> bool) (s : string) : bool :=
  match s with
  | EmptyString => true
  | String c r => f c && todos f r
  end.

(** [s.isdigit()]: at least one character, and all of them digits. *)
Definition isdigit (s : string) : bool :=
  match s with
  | EmptyString => false
  | String _ _ => todos digito s
  end.

(** The white space [int] skips around the digits: TAB..CR, space, NEL
    (U+0085) and NBSP (U+00A0). *)
Definition espaco (c : ascii) : bool :=
  let n := N_of_ascii c in
  no_intervalo 9 13 n || (n =? 32)%N || (n =? 133)%N || (n =? 160)%N.

Fixpoint tira_espacos (l : list ascii) : list ascii :=
  match l with
  | c :: r => if espaco c then tira_espacos r else l
  | [] => []
  end.

Definition strip (l : list ascii) : list ascii :=
  rev (tira_espacos (rev (tira_espacos l))).

Definition valor_digito (c : ascii) : Z := Z.of_N (N_of_ascii c) - 48.

(** Decimal digits, where one underscore may stand between two digits. *)
Fixpoint le_digitos (acc : Z) (apos_digito : bool) (l : list ascii) : option Z :=
  match l with
  | [] => if apos_digito then Some acc else None
  | c :: r =>
      if digito_decimal c then le_digitos (10 * acc + valor_digito c) true r
      else if (c =? "_")%char then
             (if apos_digito then le_digitos acc false r else None)
           else None
  end.

(** [sys.get_int_max_str_digits()]: the program leaves it at its default. *)
Definition int_max_str_digits : N := 4300.

(** The digits of a literal, leading zeros among them; the sign, the
    underscores and the white space around are not counted. *)
Definition conta_digitos (l : list ascii) : N :=
  N.of_nat (List.length (filter digito_decimal l)).

(** [int(s)] in base 10: [None] is ValueError, which a literal of more
    than [int_max_str_digits] digits raises as well. *)
Definition int_de_str (s : string) : option Z :=
  match strip (list_ascii_of_string s) with
  | c :: r =>
      let sinal := ((c =? "-") || (c =? "+"))%char in
      let digitos := if sinal then r else c :: r in
      if (conta_digitos digitos <=? int_max_str_digits)%N then
        if (c =? "-")%char then option_map Z.opp (le_digitos 0 false r)
        else le_digitos 0 false digitos
      else None
  | [] => None
  end.

(** [str(n)] for an int. *)
Definition str_de_int (z : Z) : string := NilZero.string_of_int (Z.to_int z).

(** The negative answer with its tilde: n, U+00E3, o. *)
Definition nao_com_til : string := String "n" (String (ascii_of_N 227) "o").

(** [resposta in ['sim', 'não', 'nao']] *)
Definition resposta_reconhecida (r : string) : bool :=
  ((r =? "sim") || (r =? nao_com_til) || (r =? "nao"))%string.

(* ------------------------------------------------------------------ *)
(** ** Console, database and files *)

(** The prompts passed to [input]. *)
Inductive pergunta : Type :=
| PNomeProduto | POrigem | PDestino | PQuantidade
| PTemperaturaMinima | PTemperaturaMaxima
| PRequerVentilacao | PRequerProtecaoSolar
| PCapacidade | PTemperaturaTransporte
| PTemVentilacao | PTemProtecaoSolar
| PIdProduto | PEscolha | PEnter | PEscolhaSeis
| PIdProdutoJson | PIdVeiculoJson.

(** What [json.dump] receives: a dict, in insertion order. *)
Inductive jvalor : Type :=
| JInt (z : Z)
| JNum (x : num)
| JStr (s : string).

Definition json : Type := list (string * jvalor).

(** The dicts the two registrations build and pass to the INSERT. *)
Record dados_produtos : Type := DadosProdutos {
  dp_produto : string;
  dp_quantidade : Z;
  dp_origem : string;
  dp_destino : string;
  dp_temperatura_minima : num;
  dp_temperatura_maxima : num;
  dp_ventilacao : string;
  dp_protecao_solar : string
}.

Record dados_transporte : Type := DadosTransporte {
  dt_capacidade : Z;
  dt_temperatura : num;
  dt_ventilacao : string;
  dt_protecao_solar : string
}.

(** Everything the program writes or does to the outside, one constructor
    per [print], [input], [os.system('cls')], file written or handle
    closed.  [EscreveArquivo] is a file opened and written to the end;
    [ArquivoIncompleto] is a file opened and left with the fields [escrito]
    and the key [chave], whose value [json.dump] refused. *)
Inductive evento : Type :=
| Input (p : pergunta)
| Cls
| MsgCampoVazio (nome_campo : string)
| MsgDigiteNumeroValido
| MsgDigiteValorValido
| MsgApenasSimOuNao
| MsgDadosGravados
| MsgErroAoInserir (mensagem : string)
| MsgListarProdutos
| MsgNaoHaProdutos
| TabelaProdutos (linhas : list Produto.linha)
| MsgListados
| MsgNaoHaVeiculosParaComparacao
| MsgVeiculoDisponivel (idx : Z)
| MsgCapacidade (capacidade quantidade : Z)
| MsgTemperatura (temperatura minima maxima : num)
| MsgVentilacao (v : string)
| MsgProtecaoSolar (v : string)
| MsgNenhumVeiculo (produto : string)
| LinhaEmBranco
| MsgProdutoNaoEncontrado (id : string)
| MsgListarVeiculos
| MsgNaoHaVeiculosCadastrados
| TabelaVeiculos (linhas : list Veiculo.linha)
| MsgMenu
| MsgEscolhaInvalida
| MsgSaindo
| FechaCursores
| FechaConexao
| EscreveArquivo (nome : string) (conteudo : json)
| ArquivoIncompleto (nome : string) (escrito : json) (chave : string)
| MsgSalvo (chave arquivo : string)
| MsgIdProdutoInvalido
| MsgIdVeiculoInvalido
| MsgNaoHaProdutosParaSalvar
| MsgNaoHaVeiculosParaSalvar
| MsgSemConexao.

(** [entrada] is what remains to be typed, one line per element; [saida]
    holds the events so far, the most recent first; the two lists of rows
    are what [SELECT *] returns from each table. *)
Record mundo : Type := Mundo {
  entrada : list string;
  saida : list evento;
  tabela_produtos : list Produto.linha;
  tabela_veiculos : list Veiculo.linha
}.

(** The events in the order they happened. *)
Definition historico (w : mundo) : list evento := rev (saida w).

(** How [open(arquivo, 'w')] fails: on a name the file system refuses (a
    directory that is not there, no permission) it raises an OSError, on a
    name with a null character a ValueError. *)
Inductive falha_de_open : Type :=
| RecusadoPeloSistema
| NomeComNulo.

(** What the program takes from outside and this development leaves open:
    [float] (its rounding is not modelled), whether the connection opens,
    what an INSERT does to a table (the identifier it assigns, or the
    DatabaseError it raises, given by its message), and whether a file of
    a given name opens for writing ([None]) or how it fails. *)
Record ambiente : Type := Ambiente {
  float_de_str : string -> option num;
  conecta : bool;
  inserir_produto : dados_produtos -> list Produto.linha -> string + list Produto.linha;
  inserir_veiculo : dados_transporte -> list Veiculo.linha -> string + list Veiculo.linha;
  open_para_escrita : string -> option falha_de_open
}.

Inductive excecao : Type :=
| EOFError
| ValueError
| IndexError
| TypeError
| OSError
| SystemExit (codigo : Z).

Definition excecao_de_open (f : falha_de_open) : excecao :=
  match f with
  | RecusadoPeloSistema => OSError
  | NomeComNulo => ValueError
  end.

(** How a call ends: it returns, it raises, or ([Esgotado]) the bound on the
    number of iterations was reached; the lemmas on [regular] below show
    that no loop of the program reaches its bound. *)
Inductive resultado (A : Type) : Type :=
| Retorna (a : A)
| Levanta (e : excecao)
| Esgotado.

Arguments Retorna {A} a.
Arguments Levanta {A} e.
Arguments Esgotado {A}.

Definition prog (A : Type) : Type := mundo -> resultado A * mundo.

Definition ret {A} (a : A) : prog A := fun w => (Retorna a, w).

Definition bind {A B} (m : prog A) (k : A -> prog B) : prog B :=
  fun w =>
    match m w with
    | (Retorna a, w') => k a w'
    | (Levanta e, w') => (Levanta e, w')
    | (Esgotado, w') => (Esgotado, w')
    end.

Notation "x <- m ;; k" := (bind m (fun x => k))
  (at level 61, m at next level, right associativity).
Notation "m ;; k" := (bind m (fun _ => k))
  (at level 61, right associativity).

Definition levanta {A} (e : excecao) : prog A := fun w => (Levanta e, w).

Definition emite (e : evento) : prog unit :=
  fun w => (Retorna tt,
            Mundo (entrada w) (e :: saida w) (tabela_produtos w) (tabela_veiculos w)).

(** [input(p)]: the prompt is shown and the next line is taken; at the end
    of the input Python raises EOFError. *)
Definition input (p : pergunta) : prog string :=
  fun w =>
    let w' := Mundo (tl (entrada w)) (Input p :: saida w)
                    (tabela_produtos w) (tabela_veiculos w) in
    match entrada w with
    | [] => (Levanta EOFError, w')
    | linha :: _ => (Retorna linha, w')
    end.

(** [try: m except ValueError: h] *)
Definition exceto_ValueError {A} (m : prog A) (h : prog A) : prog A :=
  fun w =>
    match m w with
    | (Levanta ValueError, w') => h w'
    | r => r
    end.

(** [while True:] around a body that says whether it left the loop
    ([Some a]: by [return a] or [break]) or goes round again ([None]). *)
Fixpoint repetir_ate {A} (n : nat) (corpo : prog (option A)) : prog A :=
  match n with
  | O => fun w => (Esgotado, w)
  | S n' =>
      r <- corpo ;;
      match r with
      | Some a => ret a
      | None => repetir_ate n' corpo
      end
  end.

(** Every loop of the program reads a line in each round, so it goes round
    at most once per line left, plus the round that meets the end. *)
Definition voltas (w : mundo) : nat := S (List.length (entrada w)).

Definition enquanto_verdadeiro {A} (corpo : prog (option A)) : prog A :=
  fun w => repetir_ate (voltas w) corpo w.

(** A call is regular when it never meets the bound on iterations and
    leaves at most the lines it was given. *)
Definition regular {A} (m : prog A) : Prop :=
  forall w r w',
    m w = (r, w') ->
    r <> Esgotado /\ (List.length (entrada w') <= List.length (entrada w))%nat.

(** A call reads a line first when, moreover, it has taken at least one
    line unless it ended on the end of the input. *)
Definition le_uma_linha {A} (m : prog A) : Prop :=
  forall w r w',
    m w = (r, w') ->
    r <> Esgotado
    /\ (List.length (entrada w') <= List.length (entrada w))%nat
    /\ (r <> Levanta EOFError ->
        (List.length (entrada w') < List.length (entrada w))%nat).

(* ------------------------------------------------------------------ *)
(** ** Validation and prompts *)

(** [valor_nulo]: [not campo] holds of the empty string alone. *)
Definition valor_nulo (campo nome_campo : string) : prog bool :=
  match campo with
  | EmptyString => emite (MsgCampoVazio nome_campo) ;; ret true
  | String _ _ => ret false
  end.

(** [validar_positivo]: the ValueError raised for [numero <= 0] is caught
    in the function itself. *)
Definition validar_positivo (numero : Z) : prog bool :=
  exceto_ValueError
    (if numero <=? 0 then levanta ValueError else ret false)
    (emite MsgDigiteNumeroValido ;; ret true).

Definition perguntar_sim_nao_corpo (p : pergunta) : prog (option bool) :=
  linha <- input p ;;
  let resposta := lower linha in
  if resposta_reconhecida resposta
  then ret (Some (resposta =? "sim")%string)
  else emite MsgApenasSimOuNao ;; ret None.

Definition perguntar_sim_nao (p : pergunta) : prog bool :=
  enquanto_verdadeiro (perguntar_sim_nao_corpo p).

(** The three words of the yes/no prompt, as the specification names
    them: the affirmative, the negative, and the negative without its
    tilde. *)
Definition palavra_literal (r : string) : Prop :=
  r = "sim" \/ r = nao_com_til \/ r = "nao".

(** The output after [k] refused answers to the prompt [p]: each one added
    the prompt and the complaint. *)
Fixpoint recusas (p : pergunta) (k : nat) (s : list evento) : list evento :=
  match k with
  | O => s
  | S k' => recusas p k' (MsgApenasSimOuNao :: Input p :: s)
  end.

(** [int(input(p))] and [float(input(p))] *)
Definition input_int (p : pergunta) : prog Z :=
  linha <- input p ;;
  match int_de_str linha with
  | Some z => ret z
  | None => levanta ValueError
  end.

Definition input_float (amb : ambiente) (p : pergunta) : prog num :=
  linha <- input p ;;
  match float_de_str amb linha with
  | Some x => ret x
  | None => levanta ValueError
  end.

(* ------------------------------------------------------------------ *)
(** ** The two registrations *)

Definition coleta_produto (amb : ambiente) : prog (option dados_produtos) :=
  exceto_ValueError
    (produto <- input PNomeProduto ;;
     vazio <- valor_nulo produto "produto" ;;
     if vazio : bool then ret None else
     origem <- input POrigem ;;
     vazio <- valor_nulo origem "origem" ;;
     if vazio : bool then ret None else
     destino <- input PDestino ;;
     vazio <- valor_nulo destino "destino" ;;
     if vazio : bool then ret None else
     quantidade <- input_int PQuantidade ;;
     invalido <- validar_positivo quantidade ;;
     if invalido : bool then ret None else
     temperatura_minima <- input_float amb PTemperaturaMinima ;;
     temperatura_maxima <- input_float amb PTemperaturaMaxima ;;
     ventilacao <- perguntar_sim_nao PRequerVentilacao ;;
     protecao_solar <- perguntar_sim_nao PRequerProtecaoSolar ;;
     ret (Some (DadosProdutos produto quantidade origem destino
                  temperatura_minima temperatura_maxima
                  (sim_ou_nao ventilacao) (sim_ou_nao protecao_solar))))
    (emite MsgDigiteNumeroValido ;; ret None).

(** The INSERT and the commit; a DatabaseError is caught and reported. *)
Definition grava_produto (amb : ambiente) (d : dados_produtos) : prog unit :=
  fun w =>
    match inserir_produto amb d (tabela_produtos w) with
    | inr linhas =>
        (Retorna tt,
         Mundo (entrada w) (MsgDadosGravados :: saida w) linhas (tabela_veiculos w))
    | inl mensagem => emite (MsgErroAoInserir mensagem) w
    end.

Definition dados_coletados_produtos (amb : ambiente) : prog dados_produtos :=
  dados <- enquanto_verdadeiro (coleta_produto amb) ;;
  grava_produto amb dados ;;
  ret dados.

Definition coleta_transporte (amb : ambiente) : prog (option dados_transporte) :=
  exceto_ValueError
    (capacidade <- input_int PCapacidade ;;
     temperatura_transporte <- input_float amb PTemperaturaTransporte ;;
     ventilacao <- perguntar_sim_nao PTemVentilacao ;;
     protecao_solar <- perguntar_sim_nao PTemProtecaoSolar ;;
     ret (Some (DadosTransporte capacidade temperatura_transporte
                  (sim_ou_nao ventilacao) (sim_ou_nao protecao_solar))))
    (emite MsgDigiteValorValido ;; ret None).

Definition grava_transporte (amb : ambiente) (d : dados_transporte) : prog unit :=
  fun w =>
    match inserir_veiculo amb d (tabela_veiculos w) with
    | inr linhas =>
        (Retorna tt,
         Mundo (entrada w) (MsgDadosGravados :: saida w) (tabela_produtos w) linhas)
    | inl mensagem => emite (MsgErroAoInserir mensagem) w
    end.

Definition dados_coletados_transporte (amb : ambiente) : prog dados_transporte :=
  dados <- enquanto_verdadeiro (coleta_transporte amb) ;;
  grava_transporte amb dados ;;
  ret dados.

(* ------------------------------------------------------------------ *)
(** ** Listings *)

(** [fetchall()] gives a list, empty when the table is: the result is
    never [None], which the [option] keeps visible for the callers that
    test for it. *)
Definition consultar_produtos : prog (option (list Produto.linha)) :=
  fun w => (Retorna (Some (tabela_produtos w)), w).

Definition consultar_veiculos : prog (option (list Veiculo.linha)) :=
  fun w => (Retorna (Some (tabela_veiculos w)), w).

(** [if produtos is None or not produtos: ... return None] *)
Definition listar_produtos : prog (option (list Produto.linha)) :=
  emite MsgListarProdutos ;;
  produtos <- consultar_produtos ;;
  match produtos with
  | None | Some [] => emite MsgNaoHaProdutos ;; ret None
  | Some linhas =>
      emite (TabelaProdutos linhas) ;;
      emite MsgListados ;;
      ret (Some linhas)
  end.

Definition listar_veiculos : prog (option (list Veiculo.linha)) :=
  emite MsgListarVeiculos ;;
  veiculos <- consultar_veiculos ;;
  match veiculos with
  | None | Some [] => emite MsgNaoHaVeiculosCadastrados ;; ret None
  | Some linhas =>
      emite (TabelaVeiculos linhas) ;;
      ret (Some linhas)
  end.

(* ------------------------------------------------------------------ *)
(** ** The compatibility check *)

(** [produtos_df.loc[int(id_produto)]] and [veiculos.loc[int(id_veiculo)]]:
    the row of that identifier (identifiers are unique in a table). *)
Definition produto_de_id (n : Z) (linhas : list Produto.linha) : option Produto.linha :=
  find (fun l => Produto.id_produto l =? n) linhas.

Definition veiculo_de_id (n : Z) (linhas : list Veiculo.linha) : option Veiculo.linha :=
  find (fun l => Veiculo.id_veiculo l =? n) linhas.

(** The five lines printed for the vehicle found. *)
Definition mostra_veiculo (p : Produto.linha) (v : Veiculo.linha) : prog unit :=
  emite (MsgVeiculoDisponivel (Veiculo.id_veiculo v)) ;;
  emite (MsgCapacidade (Veiculo.capacidade v) (Produto.quantidade p)) ;;
  emite (MsgTemperatura (Veiculo.temperatura v)
           (Produto.temperatura_minima p) (Produto.temperatura_maxima p)) ;;
  emite (MsgVentilacao (Veiculo.ventilacao v)) ;;
  emite (MsgProtecaoSolar (Veiculo.protecao_solar v)).

(** What follows the product lookup, once the identifier is in the index. *)
Definition compara (p : Produto.linha) (veiculo_df : list Veiculo.linha)
  : prog (option bool) :=
  match comparar_veiculo_laco p veiculo_df with
  | Some v => mostra_veiculo p v ;; ret (Some true)
  | None =>
      emite (MsgNenhumVeiculo (Produto.produto p)) ;;
      emite LinhaEmBranco ;;
      _ <- listar_veiculos ;;
      ret (Some false)
  end.

(** [comparar_veiculo] calls itself after an identifier that is not found;
    each call reads one line first, so [n] bounds the depth by the lines
    left.  [True], [False] and [None] are [Some true], [Some false] and
    [None].  The frame of vehicles is built from whatever list the query
    gave, an empty one included; the last [else] of the source, under
    [if produtos is not None], cannot be reached after the [return] above
    it and has no counterpart here. *)
Fixpoint comparar_veiculo_ate (n : nat) : prog (option bool) :=
  match n with
  | O => fun w => (Esgotado, w)
  | S n' =>
      veiculos <- consultar_veiculos ;;
      match veiculos with
      | None =>
          emite Cls ;; emite MsgNaoHaVeiculosParaComparacao ;; ret None
      | Some veiculo_df =>
          produtos <- listar_produtos ;;
          match produtos with
          | None => emite MsgNaoHaProdutos ;; ret None
          | Some linhas =>
              id_produto <- input PIdProduto ;;
              let nao_encontrado :=
                emite Cls ;;
                emite (MsgProdutoNaoEncontrado id_produto) ;;
                comparar_veiculo_ate n' in
              if isdigit id_produto then
                match int_de_str id_produto with
                | None => levanta ValueError
                | Some numero =>
                    match produto_de_id numero linhas with
                    | Some p => compara p veiculo_df
                    | None => nao_encontrado
                    end
                end
              else nao_encontrado
          end
      end
  end.

Definition comparar_veiculo : prog (option bool) :=
  fun w => comparar_veiculo_ate (voltas w) w.

(* ------------------------------------------------------------------ *)
(** ** Export to JSON *)

Definition dados_produto (l : Produto.linha) : json :=
  [ ("id_produto", JInt (Produto.id_produto l));
    ("produto", JStr (Produto.produto l));
    ("quantidade", JInt (Produto.quantidade l));
    ("origem", JStr (Produto.origem l));
    ("destino", JStr (Produto.destino l));
    ("temperatura_minima", JNum (Produto.temperatura_minima l));
    ("temperatura_maxima", JNum (Produto.temperatura_maxima l));
    ("ventilacao", JStr (Produto.ventilacao l));
    ("protecao_solar", JStr (Produto.protecao_solar l)) ].

(** [dados_produto['produto']] and the like. *)
Fixpoint campo (chave : string) (d : json) : option jvalor :=
  match d with
  | [] => None
  | (k, v) :: resto => if (k =? chave)%string then Some v else campo chave resto
  end.

(** [open(arquivo, 'w')]: it returns with the file open, or raises and
    leaves nothing written. *)
Definition abrir (amb : ambiente) (arquivo : string) : prog unit :=
  match open_para_escrita amb arquivo with
  | None => ret tt
  | Some falha => levanta (excecao_de_open falha)
  end.

(** [open(arquivo, 'w')] and [json.dump], then the message; the name of the
    file is made of the name of the product.  The values are those of the
    tuple the query gave, which [json.dump] accepts. *)
Definition escreve_produto (amb : ambiente) (produto_escolhido : Produto.linha)
  : prog unit :=
  let dados := dados_produto produto_escolhido in
  let nome := Produto.produto produto_escolhido in
  let arquivo := ("produto_" ++ nome ++ ".json")%string in
  abrir amb arquivo ;;
  emite (EscreveArquivo arquivo dados) ;;
  emite (MsgSalvo nome arquivo).

Definition salvar_dados_produtos_json (amb : ambiente) : prog unit :=
  produtos <- listar_produtos ;;
  match produtos with
  | Some ((_ :: _) as linhas) =>
      id_produto <- input PIdProdutoJson ;;
      if isdigit id_produto then
        match int_de_str id_produto with
        | None => levanta ValueError
        | Some n =>
            if existsb (fun l => Produto.id_produto l =? n) linhas then
              match filter (fun l => Produto.id_produto l =? n) linhas with
              | produto_escolhido :: _ => escreve_produto amb produto_escolhido
              | [] => levanta IndexError
              end
            else emite MsgIdProdutoInvalido
        end
      else emite MsgIdProdutoInvalido
  | _ => emite MsgNaoHaProdutosParaSalvar
  end.

Definition dados_veiculo (n : Z) (l : Veiculo.linha) : json :=
  [ ("id_veiculo", JInt n);
    ("capacidade", JInt (Veiculo.capacidade l));
    ("temperatura", JNum (Veiculo.temperatura l));
    ("ventilacao", JStr (Veiculo.ventilacao l));
    ("protecao_solar", JStr (Veiculo.protecao_solar l)) ].

Definition cabe_em_int64 (z : Z) : bool :=
  (- 2 ^ 63 <=? z) && (z <=? 2 ^ 63 - 1).

Definition cabe_em_uint64 (z : Z) : bool :=
  (0 <=? z) && (z <=? 2 ^ 64 - 1).

(** The frame [listar_veiculos] builds holds a column of ints as 64-bit
    numpy integers when they all fit, signed or unsigned, and as Python
    ints otherwise. *)
Definition coluna_de_inteiros_numpy (coluna : list Z) : bool :=
  forallb cabe_em_int64 coluna || forallb cabe_em_uint64 coluna.

(** [json.dump] on the dict of a vehicle.  The identifier is the [int] of
    the line typed; the capacity is the value of the row of the frame, a
    numpy integer whenever the column holds such, and [json.dump] raises
    TypeError on it, after it wrote the identifier and the key of the
    capacity. *)
Definition json_dump_veiculo (arquivo : string) (n : Z)
  (veiculo_escolhido : Veiculo.linha) (linhas : list Veiculo.linha) : prog unit :=
  if coluna_de_inteiros_numpy (map Veiculo.capacidade linhas) then
    emite (ArquivoIncompleto arquivo [("id_veiculo", JInt n)] "capacidade") ;;
    levanta TypeError
  else emite (EscreveArquivo arquivo (dados_veiculo n veiculo_escolhido)).

Definition salvar_veiculo_json (amb : ambiente) : prog unit :=
  veiculos <- listar_veiculos ;;
  match veiculos with
  | Some ((_ :: _) as linhas) =>
      id_veiculo <- input PIdVeiculoJson ;;
      if isdigit id_veiculo then
        match int_de_str id_veiculo with
        | None => levanta ValueError
        | Some n =>
            match veiculo_de_id n linhas with
            | Some veiculo_escolhido =>
                let arquivo := ("veiculo_" ++ str_de_int n ++ ".json")%string in
                abrir amb arquivo ;;
                json_dump_veiculo arquivo n veiculo_escolhido linhas ;;
                emite (MsgSalvo (str_de_int n) arquivo)
            | None => emite MsgIdVeiculoInvalido
            end
        end
      else emite MsgIdVeiculoInvalido
  | _ => emite MsgNaoHaVeiculosParaSalvar
  end.

(** Reading a record back from the object written, field by field under
    the names of the nine columns: the converse of the export, in the
    words of the specification. *)
Definition campo_int (chave : string) (d : json) : option Z :=
  match campo chave d with Some (JInt z) => Some z | _ => None end.

Definition campo_str (chave : string) (d : json) : option string :=
  match campo chave d with Some (JStr x) => Some x | _ => None end.

Definition campo_num (chave : string) (d : json) : option num :=
  match campo chave d with Some (JNum x) => Some x | _ => None end.

Definition e_depois {A B} (o : option A) (k : A -> option B) : option B :=
  match o with
  | Some a => k a
  | None => None
  end.

Definition produto_de_json (d : json) : option Produto.linha :=
  e_depois (campo_int "id_produto" d) (fun id =>
  e_depois (campo_str "produto" d) (fun nome =>
  e_depois (campo_int "quantidade" d) (fun quantidade =>
  e_depois (campo_str "origem" d) (fun origem =>
  e_depois (campo_str "destino" d) (fun destino =>
  e_depois (campo_num "temperatura_minima" d) (fun minima =>
  e_depois (campo_num "temperatura_maxima" d) (fun maxima =>
  e_depois (campo_str "ventilacao" d) (fun ventilacao =>
  e_depois (campo_str "protecao_solar" d) (fun protecao_solar =>
    Some (Produto.Linha id nome quantidade origem destino
            minima maxima ventilacao protecao_solar)))))))))).

Definition colunas_produto : list string :=
  [ "id_produto"; "produto"; "quantidade"; "origem"; "destino";
    "temperatura_minima"; "temperatura_maxima"; "ventilacao";
    "protecao_solar" ].

(* ------------------------------------------------------------------ *)
(** ** Menu and dispatcher *)

Definition opcao_seis (amb : ambiente) : prog unit :=
  exceto_ValueError
    (emite Cls ;;
     opcao <- input_int PEscolhaSeis ;;
     (if opcao =? 1 then salvar_dados_produtos_json amb else ret tt) ;;
     (if opcao =? 2 then salvar_veiculo_json amb else ret tt))
    (emite Cls ;; emite MsgEscolhaInvalida).

Definition menu_corpo : prog (option Z) :=
  exceto_ValueError
    (emite MsgMenu ;;
     escolha_menu <- input_int PEscolha ;;
     if existsb (Z.eqb escolha_menu) [1; 2; 3; 4; 5; 6; 7]
     then ret (Some escolha_menu)
     else emite Cls ;; levanta ValueError)
    (emite Cls ;; emite MsgEscolhaInvalida ;; ret None).

Definition menu : prog Z := enquanto_verdadeiro menu_corpo.

(** [exit(0)] raises SystemExit. *)
Definition sair (amb : ambiente) : prog unit :=
  emite Cls ;;
  emite MsgSaindo ;;
  (if conecta amb then emite FechaConexao else ret tt) ;;
  levanta (SystemExit 0).

(** The [match] on the choice. *)
Definition despacha (amb : ambiente) (escolha : Z) : prog unit :=
  match escolha with
  | 1 => emite Cls ;; _ <- dados_coletados_produtos amb ;; ret tt
  | 2 => emite Cls ;; _ <- dados_coletados_transporte amb ;; ret tt
  | 3 => emite Cls ;; _ <- listar_produtos ;; ret tt
  | 4 => emite Cls ;; _ <- listar_veiculos ;; ret tt
  | 5 => emite Cls ;; _ <- comparar_veiculo ;; ret tt
  | 6 => opcao_seis amb
  | 7 => emite Cls ;; sair amb
  | _ => ret tt
  end.

(** [while True:] of the dispatcher; a round reads the ENTER line and then
    the next choice. *)
Fixpoint opcao_escolhida_ate (amb : ambiente) (n : nat) (escolha : Z) : prog unit :=
  match n with
  | O => fun w => (Esgotado, w)
  | S n' =>
      despacha amb escolha ;;
      _ <- input PEnter ;;
      emite Cls ;;
      escolha <- menu ;;
      opcao_escolhida_ate amb n' escolha
  end.

Definition opcao_escolhida (amb : ambiente) (escolha : Z) : prog unit :=
  fun w => opcao_escolhida_ate amb (voltas w) escolha w.

(** What follows the dispatcher call in the main block. *)
Definition apos_o_menu (amb : ambiente) : prog unit :=
  _ <- dados_coletados_produtos amb ;;
  emite FechaCursores ;;
  emite FechaConexao.

(** The block under [if __name__ == "__main__":]. *)
Definition principal (amb : ambiente) : prog unit :=
  if conecta amb then
    escolha <- menu ;;
    opcao_escolhida amb escolha ;;
    apos_o_menu amb
  else emite MsgSemConexao.

(* ------------------------------------------------------------------ *)
(** ** Sample rows and a sample environment *)

Definition soja : Produto.linha :=
  Produto.Linha 1 "soja" 100 "Sorriso" "Santos"
    (num_de_Z 2) (num_de_Z 8) "SIM" "NAO".

(** A product registered with its two temperatures the wrong way round,
    which no validation of the registration prevents. *)
Definition leite : Produto.linha :=
  Produto.Linha 2 "leite" 10 "Castro" "Curitiba"
    (num_de_Z 8) (num_de_Z 2) "SIM" "NAO".

Definition caminhao_pequeno : Veiculo.linha :=
  Veiculo.Linha 1 50 (num_de_Z 5) "SIM" "NAO".

Definition caminhao_grande : Veiculo.linha :=
  Veiculo.Linha 2 150 (num_de_Z 5) "SIM" "NAO".

Definition caminhao_a_oito_graus : Veiculo.linha :=
  Veiculo.Linha 3 20 (num_de_Z 8) "SIM" "NAO".

(** An environment to run the program in: [float] is given on integer
    literals only, the connection opens, an INSERT appends the row under
    the next identifier, and every file opens. *)
Definition amb_exemplo : ambiente :=
  Ambiente
    (fun s => option_map num_de_Z (int_de_str s))
    true
    (fun d linhas =>
       inr (linhas ++
            [Produto.Linha (1 + Z.of_nat (List.length linhas))
               (dp_produto d) (dp_quantidade d) (dp_origem d) (dp_destino d)
               (dp_temperatura_minima d) (dp_temperatura_maxima d)
               (dp_ventilacao d) (dp_protecao_solar d)]))
    (fun d linhas =>
       inr (linhas ++
            [Veiculo.Linha (1 + Z.of_nat (List.length linhas))
               (dt_capacidade d) (dt_temperatura d)
               (dt_ventilacao d) (dt_protecao_solar d)]))
    (fun _ => None).

(** The superscript two, U+00B2, as a line of input. *)
Definition dois_sobrescrito : string := String (ascii_of_N 178) "".

(* ------------------------------------------------------------------ *)
(** ** What a call may do *)

(** Between the world before a call and the world after it: the output
    grew by events that all satisfy [P], and, when [fixas] is set, the two
    tables are what they were. *)
Definition quadro (P : evento -> Prop) (fixas : bool) (w w' : mundo) : Prop :=
  (exists novos, saida w' = novos ++ saida w /\ Forall P novos)
  /\ (fixas = true ->
      tabela_produtos w' = tabela_produtos w
      /\ tabela_veiculos w' = tabela_veiculos w).

(** A call keeps within [P], [fixas] and [E] when every run of it relates
    the two worlds by [quadro P fixas] and, if it raises, raises an
    exception that [E] allows in the world it leaves. *)
Definition disciplinado {A} (P : evento -> Prop) (fixas : bool)
  (E : excecao -> mundo -> Prop) (m : prog A) : Prop :=
  forall w r w',
    m w = (r, w') ->
    quadro P fixas w w' /\ (forall e, r = Levanta e -> E e w').

(** The exceptions a [try ... except ValueError] lets its body raise. *)
Definition ou_ValueError (E : excecao -> mundo -> Prop) : excecao -> mundo -> Prop :=
  fun e w => e = ValueError \/ E e w.

Definition so_EOFError : excecao -> mundo -> Prop := fun e _ => e = EOFError.

Definition qualquer_excecao : excecao -> mundo -> Prop := fun _ _ => True.

(** The events of the operations that only read the tables and write on
    the console: no file, no INSERT, no handle closed, and not the message
    that there are no vehicles to compare. *)
Definition evento_de_consulta (e : evento) : Prop :=
  match e with
  | EscreveArquivo _ _ | ArquivoIncompleto _ _ _ | MsgSalvo _ _
  | MsgDadosGravados | MsgErroAoInserir _
  | FechaCursores | FechaConexao | MsgSaindo | MsgSemConexao
  | MsgNaoHaVeiculosParaComparacao => False
  | _ => True
  end.

(** The events of the two registrations: the console and the INSERT. *)
Definition evento_de_cadastro (e : evento) : Prop :=
  match e with
  | EscreveArquivo _ _ | ArquivoIncompleto _ _ _ | MsgSalvo _ _
  | FechaCursores | FechaConexao | MsgSaindo | MsgSemConexao
  | MsgNaoHaVeiculosParaComparacao => False
  | _ => True
  end.

(** The events that leave no file behind, whole or not. *)
Definition sem_arquivo (e : evento) : Prop :=
  match e with
  | EscreveArquivo _ _ | ArquivoIncompleto _ _ _ => False
  | _ => True
  end.

(** The events of the two exports: those of a listing, the file and the
    message that it was saved. *)
Definition evento_de_exportacao (e : evento) : Prop :=
  evento_de_consulta e
  \/ match e with
     | EscreveArquivo _ _ | ArquivoIncompleto _ _ _ | MsgSalvo _ _ => True
     | _ => False
     end.

(** What an export may raise: the end of the input, the ValueError of
    [int] or of [open], the OSError of [open], the TypeError of
    [json.dump]. *)
Definition excecao_de_exportacao (e : excecao) (_ : mundo) : Prop :=
  e = EOFError \/ e = ValueError \/ e = OSError \/ e = TypeError.

(** The output ends with what [sair] wrote: the screen cleared (once by
    the dispatcher, once by [sair]), the farewell, and the connection
    closed when there is one. *)
Definition saiu_pelo_menu (amb : ambiente) (w : mundo) : Prop :=
  exists antes,
    saida w
    = (if conecta amb then [FechaConexao] else [])
      ++ MsgSaindo :: Cls :: Cls :: antes.

(** How the dispatcher may end: when it is by SystemExit, the code is 0
    and [sair] wrote the last lines. *)
Definition fim_do_programa (amb : ambiente) (e : excecao) (w : mundo) : Prop :=
  forall codigo, e = SystemExit codigo -> codigo = 0 /\ saiu_pelo_menu amb w.

(** The events of the menu and of everything it dispatches: all but the
    closing of the cursors and the message of the failed connection. *)
Definition evento_do_menu (e : evento) : Prop :=
  match e with
  | FechaCursores | MsgSemConexao => False
  | _ => True
  end.

(** A call that ended by returning or on the end of the input. *)
Definition retorna_ou_fim_de_entrada {A} (r : resultado A) : Prop :=
  match r with
  | Retorna _ | Levanta EOFError => True
  | _ => False
  end.

(** A line the menu refuses: not a number, or a number that is no option. *)
Definition escolha_recusada (linha : string) : Prop :=
  match int_de_str linha with
  | None => True
  | Some n => ~ (1 <= n <= 7)
  end.

(** What the menu adds to the output for a line it refuses: the menu and
    the prompt, the screen cleared (twice when the line was a number, once
    by the test of the range and once by the handler) and the message. *)
Definition recusa_do_menu (s : list evento) (linha : string) : list evento :=
  match int_de_str linha with
  | None => MsgEscolhaInvalida :: Cls :: Input PEscolha :: MsgMenu :: s
  | Some _ => MsgEscolhaInvalida :: Cls :: Cls :: Input PEscolha :: MsgMenu :: s
  end.

(** More sample rows. *)
Definition caminhao_frio : Veiculo.linha :=
  Veiculo.Linha 7 200 (num_de_Z 4) "SIM" "NAO".

(* ------------------------------------------------------------------ *)
(** ** Facts about the comparisons *)

Lemma num_eq_le a b : num_eq a b = true -> num_le a b = true.
Proof.
  destruct a, b; simpl; try discriminate; auto.
  intros H. apply Qeq_bool_iff in H. apply Qle_bool_iff. rewrite H. apply Qle_refl.
Qed.

Lemma num_eq_ge a b : num_eq a b = true -> num_le b a = true.
Proof.
  destruct a, b; simpl; try discriminate; auto.
  intros H. apply Qeq_bool_iff in H. apply Qle_bool_iff. rewrite H. apply Qle_refl.
Qed.

Lemma num_le_trans a b c :
  num_le a b = true -> num_le b c = true -> num_le a c = true.
Proof.
  destruct a, b, c; simpl; try discriminate; auto.
  rewrite !Qle_bool_iff. apply Qle_trans.
Qed.

Lemma num_lt_not_le a b : num_lt a b = true -> num_le b a = false.
Proof.
  destruct a, b; simpl; try discriminate; auto.
  intros H. apply negb_true_iff in H. exact H.
Qed.

Lemma flag_test (a b : string) :
  flag_valida a ->
  ((a =? "SIM") && (b =? "SIM"))%string || ((a =? "NAO") && (b =? "NAO"))%string = true
  <-> b = a.
Proof.
  intros [-> | ->]; simpl.
  - rewrite orb_false_r. apply String.eqb_eq.
  - apply String.eqb_eq.
Qed.

Lemma condicoes_atendidas_compativel p v :
  flag_valida (Produto.ventilacao p) ->
  flag_valida (Produto.protecao_solar p) ->
  condicoes_atendidas p v = true <-> compativel p v.
Proof.
  intros Hv Hs. unfold condicoes_atendidas, compativel.
  rewrite !andb_true_iff.
  unfold capacidade_ok, temperatura_ok, ventilacao_ok, protecao_solar_ok.
  rewrite (flag_test _ _ Hv), (flag_test _ _ Hs), Z.leb_le, andb_true_iff.
  tauto.
Qed.

Lemma laco_some p vs v :
  comparar_veiculo_laco p vs = Some v ->
  exists antes depois,
    vs = antes ++ v :: depois
    /\ condicoes_atendidas p v = true
    /\ forall u, In u antes -> condicoes_atendidas p u = false.
Proof.
  induction vs as [| w vs IH]; simpl; [discriminate |].
  destruct (condicoes_atendidas p w) eqn:E.
  - intros [= <-]. exists [], vs. repeat split; auto. intros u [].
  - intros H. destruct (IH H) as (a & d & -> & Hok & Hpre).
    exists (w :: a), d. repeat split; auto.
    intros u [<- | Hu]; auto.
Qed.

Lemma laco_none p vs :
  comparar_veiculo_laco p vs = None
  <-> forall v, In v vs -> condicoes_atendidas p v = false.
Proof.
  induction vs as [| w vs IH]; simpl.
  - split; auto. intros _ v [].
  - destruct (condicoes_atendidas p w) eqn:E.
    + split; [discriminate |]. intros H. rewrite (H w) in E; auto. discriminate.
    + rewrite IH. split.
      * intros H v [<- | Hv]; auto.
      * intros H v Hv. apply H. now right.
Qed.

Lemma flag_test_igual (a b : string) :
  ((a =? "SIM") && (b =? "SIM"))%string || ((a =? "NAO") && (b =? "NAO"))%string = true ->
  b = a.
Proof.
  rewrite orb_true_iff, !andb_true_iff, !String.eqb_eq.
  intros [[-> ->] | [-> ->]]; reflexivity.
Qed.

Lemma condicoes_atendidas_implica_compativel p v :
  condicoes_atendidas p v = true -> compativel p v.
Proof.
  unfold condicoes_atendidas, compativel.
  rewrite !andb_true_iff.
  unfold capacidade_ok, temperatura_ok, ventilacao_ok, protecao_solar_ok.
  rewrite Z.leb_le, andb_true_iff.
  intros [[[Hc Ht] Hv] Hs].
  repeat split; try tauto; now apply flag_test_igual.
Qed.

(** C1. The loop returns a vehicle only if that vehicle is one of the list
    and satisfies the four predicates (capacity at least the quantity,
    temperature inside the range, ventilation equal, sun protection
    equal).  For a product whose two flags are the persisted literals, the
    vehicle it returns is the first such one in the order of the list, and
    it returns nothing exactly when no vehicle of the list satisfies the
    four. *)
Theorem comparar_veiculo_laco_primeiro_compativel
  (p : Produto.linha) (vs : list Veiculo.linha) :
  (forall v, comparar_veiculo_laco p vs = Some v ->
     In v vs /\ compativel p v)
  /\ (flag_valida (Produto.ventilacao p) ->
      flag_valida (Produto.protecao_solar p) ->
      (forall v, comparar_veiculo_laco p vs = Some v ->
         exists antes depois,
           vs = antes ++ v :: depois
           /\ forall u, In u antes -> ~ compativel p u)
      /\ (comparar_veiculo_laco p vs = None
          <-> forall v, In v vs -> ~ compativel p v)).
Proof.
  split; [| intros Hvent Hsol; split].
  - intros v H. destruct (laco_some _ _ _ H) as (a & d & -> & Hok & Hpre).
    split; [apply in_or_app; right; now left |].
    now apply condicoes_atendidas_implica_compativel.
  - intros v H. destruct (laco_some _ _ _ H) as (a & d & -> & Hok & Hpre).
    exists a, d. split; [reflexivity |].
    intros u Hu Hc. apply (condicoes_atendidas_compativel p u Hvent Hsol) in Hc.
    rewrite (Hpre u Hu) in Hc. discriminate.
  - rewrite laco_none. split; intros H v Hv.
    + intros Hc. apply (condicoes_atendidas_compativel p v Hvent Hsol) in Hc.
      rewrite (H v Hv) in Hc. discriminate.
    + destruct (condicoes_atendidas p v) eqn:E; [| reflexivity].
      exfalso. apply (H v Hv). now apply condicoes_atendidas_compativel.
Qed.

(** Why C1 asks for the persisted literals: the test of the loop compares
    each flag with 'SIM' and with 'NAO', so two rows that carry the same
    flag in another spelling are not matched. *)
Remark flags_em_outra_grafia_nao_casam :
  let p := Produto.Linha 1 "soja" 100 "Sorriso" "Santos"
             (num_de_Z 2) (num_de_Z 8) "Sim" "NAO" in
  let v := Veiculo.Linha 1 150 (num_de_Z 5) "Sim" "NAO" in
  compativel p v /\ comparar_veiculo_laco p [v] = None.
Proof.
  repeat split. simpl. lia.
Qed.

Lemma faixa_invertida_sem_temperatura p v :
  num_gt (Produto.temperatura_minima p) (Produto.temperatura_maxima p) = true ->
  temperatura_ok p v = false.
Proof.
  intros H. unfold num_gt in H. apply num_lt_not_le in H.
  unfold temperatura_ok.
  destruct (num_le (Produto.temperatura_minima p) (Veiculo.temperatura v)) eqn:E1;
    [| reflexivity].
  destruct (num_le (Veiculo.temperatura v) (Produto.temperatura_maxima p)) eqn:E2;
    [| reflexivity].
  rewrite (num_le_trans _ _ _ E1 E2) in H. discriminate.
Qed.

(** C4, as the code has it.  For a product whose flags are the persisted
    literals and whose minimum temperature is at most its maximum, a
    vehicle that satisfies the capacity, ventilation and sun-protection
    predicates and whose temperature equals the minimum or equals the
    maximum passes the test of the loop: the range is closed at both
    ends. *)
Theorem limites_da_faixa_inclusivos (p : Produto.linha) (w : Veiculo.linha)
  (Hvent : flag_valida (Produto.ventilacao p))
  (Hsol : flag_valida (Produto.protecao_solar p))
  (Hfaixa : num_le (Produto.temperatura_minima p) (Produto.temperatura_maxima p) = true)
  (Hcap : Produto.quantidade p <= Veiculo.capacidade w)
  (Hv : Veiculo.ventilacao w = Produto.ventilacao p)
  (Hs : Veiculo.protecao_solar w = Produto.protecao_solar p)
  (Hlimite : num_eq (Veiculo.temperatura w) (Produto.temperatura_minima p) = true
             \/ num_eq (Veiculo.temperatura w) (Produto.temperatura_maxima p) = true) :
  condicoes_atendidas p w = true
  /\ forall antes depois,
       (forall u, In u antes -> condicoes_atendidas p u = false) ->
       comparar_veiculo_laco p (antes ++ w :: depois) = Some w.
Proof.
  assert (Hok : condicoes_atendidas p w = true).
  { apply condicoes_atendidas_compativel; auto.
    unfold compativel. repeat split; auto.
    - destruct Hlimite as [H | H].
      + now apply num_eq_ge.
      + apply num_le_trans with (Produto.temperatura_maxima p); auto.
        now apply num_eq_ge.
    - destruct Hlimite as [H | H].
      + apply num_le_trans with (Produto.temperatura_minima p); auto.
        now apply num_eq_le.
      + now apply num_eq_le. }
  split; [exact Hok |].
  intros antes depois Hantes. induction antes as [| u antes IH]; simpl.
  - now rewrite Hok.
  - rewrite (Hantes u) by now left. apply IH. intros x Hx. apply Hantes. now right.
Qed.

Lemma limites_da_faixa_inclusivos_exemplo :
  condicoes_atendidas soja (Veiculo.Linha 9 100 (num_de_Z 2) "SIM" "NAO") = true
  /\ forall antes depois,
       (forall u, In u antes -> condicoes_atendidas soja u = false) ->
       comparar_veiculo_laco soja
         (antes ++ Veiculo.Linha 9 100 (num_de_Z 2) "SIM" "NAO" :: depois)
       = Some (Veiculo.Linha 9 100 (num_de_Z 2) "SIM" "NAO").
Proof.
  apply (limites_da_faixa_inclusivos soja
           (Veiculo.Linha 9 100 (num_de_Z 2) "SIM" "NAO")).
  - left; reflexivity.
  - right; reflexivity.
  - reflexivity.
  - simpl; lia.
  - reflexivity.
  - reflexivity.
  - left; reflexivity.
Defined.

(** C4 as the specification states it fails where the range is inverted:
    the vehicle below satisfies the capacity, ventilation and
    sun-protection predicates and its temperature equals the minimum of
    the product, and the test of the loop rejects it. *)
Lemma limite_com_faixa_invertida_rejeitado :
  Produto.quantidade leite <= Veiculo.capacidade caminhao_a_oito_graus
  /\ Veiculo.ventilacao caminhao_a_oito_graus = Produto.ventilacao leite
  /\ Veiculo.protecao_solar caminhao_a_oito_graus = Produto.protecao_solar leite
  /\ num_eq (Veiculo.temperatura caminhao_a_oito_graus)
            (Produto.temperatura_minima leite) = true
  /\ condicoes_atendidas leite caminhao_a_oito_graus = false
  /\ comparar_veiculo_laco leite [caminhao_a_oito_graus] = None.
Proof.
  repeat split; simpl; try reflexivity. lia.
Qed.

(** C5. With a product of quantity 100, temperatures from 2 to 8,
    ventilation required and sun protection not required, and two vehicles
    of which the first has capacity 50 (whatever its other fields) and the
    second capacity 150, temperature 5, ventilation and no sun protection,
    the loop returns the second vehicle. *)
Theorem exemplo_retorna_segundo_veiculo
  (id_p : Z) (nome origem destino : string)
  (id1 : Z) (t1 : num) (vent1 sol1 : string) (id2 : Z) :
  comparar_veiculo_laco
    (Produto.Linha id_p nome 100 origem destino (num_de_Z 2) (num_de_Z 8) "SIM" "NAO")
    [ Veiculo.Linha id1 50 t1 vent1 sol1;
      Veiculo.Linha id2 150 (num_de_Z 5) "SIM" "NAO" ]
  = Some (Veiculo.Linha id2 150 (num_de_Z 5) "SIM" "NAO").
Proof.
  reflexivity.
Qed.

(** C7. For a product whose minimum temperature is strictly greater than
    its maximum, the loop finds no vehicle in any list: no temperature
    lies in the range, whatever the other attributes. *)
Theorem faixa_invertida_sem_veiculo (p : Produto.linha) (vs : list Veiculo.linha)
  (Hinv : num_gt (Produto.temperatura_minima p) (Produto.temperatura_maxima p) = true) :
  comparar_veiculo_laco p vs = None
  /\ forall v, temperatura_ok p v = false.
Proof.
  split.
  - apply laco_none. intros v _. unfold condicoes_atendidas.
    rewrite (faixa_invertida_sem_temperatura p v Hinv).
    now rewrite andb_false_r.
  - intros v. now apply faixa_invertida_sem_temperatura.
Qed.

Lemma faixa_invertida_sem_veiculo_exemplo :
  comparar_veiculo_laco leite
    [caminhao_pequeno; caminhao_grande; caminhao_a_oito_graus] = None
  /\ forall v, temperatura_ok leite v = false.
Proof.
  apply (faixa_invertida_sem_veiculo leite
           [caminhao_pequeno; caminhao_grande; caminhao_a_oito_graus]).
  reflexivity.
Defined.

Lemma comparar_veiculo_laco_primeiro_compativel_exemplo :
  (forall v, comparar_veiculo_laco soja [caminhao_pequeno; caminhao_grande] = Some v ->
     In v [caminhao_pequeno; caminhao_grande] /\ compativel soja v)
  /\ (forall v, comparar_veiculo_laco soja [caminhao_pequeno; caminhao_grande] = Some v ->
        exists antes depois,
          [caminhao_pequeno; caminhao_grande] = antes ++ v :: depois
          /\ forall u, In u antes -> ~ compativel soja u)
  /\ (comparar_veiculo_laco soja [caminhao_pequeno; caminhao_grande] = None
      <-> forall v, In v [caminhao_pequeno; caminhao_grande] -> ~ compativel soja v).
Proof.
  destruct (comparar_veiculo_laco_primeiro_compativel soja
              [caminhao_pequeno; caminhao_grande]) as [H1 H2].
  split; [exact H1 |].
  apply H2.
  - left; reflexivity.
  - right; reflexivity.
Defined.

(* ------------------------------------------------------------------ *)
(** ** The yes/no prompt *)

Lemma resposta_reconhecida_literal r :
  resposta_reconhecida r = true <-> palavra_literal r.
Proof.
  unfold resposta_reconhecida, palavra_literal.
  rewrite !orb_true_iff, !String.eqb_eq. tauto.
Qed.

Lemma resposta_recusada r :
  ~ palavra_literal r -> resposta_reconhecida r = false.
Proof.
  intros H. destruct (resposta_reconhecida r) eqn:E; [| reflexivity].
  now apply resposta_reconhecida_literal in E.
Qed.

Lemma repetir_ate_pergunta_aceita p antes :
  forall n linha depois s tp tv,
    (List.length antes < n)%nat ->
    Forall (fun l => ~ palavra_literal (lower l)) antes ->
    palavra_literal (lower linha) ->
    repetir_ate n (perguntar_sim_nao_corpo p)
      (Mundo (antes ++ linha :: depois) s tp tv)
    = (Retorna (lower linha =? "sim")%string,
       Mundo depois (Input p :: recusas p (List.length antes) s) tp tv).
Proof.
  induction antes as [| l antes IH]; intros n linha depois s tp tv Hn Hant Hlin.
  - destruct n as [| n]; [simpl in Hn; lia |].
    apply resposta_reconhecida_literal in Hlin.
    simpl. unfold bind, perguntar_sim_nao_corpo, bind, input. simpl.
    rewrite Hlin. reflexivity.
  - destruct n as [| n]; [simpl in Hn; lia |].
    inversion Hant as [| ? ? Hl Hant']; subst.
    apply resposta_recusada in Hl.
    simpl. unfold bind at 1. unfold perguntar_sim_nao_corpo, bind, input. simpl.
    rewrite Hl. unfold emite, ret. simpl.
    apply IH; auto. simpl in Hn. lia.
Qed.

Lemma repetir_ate_pergunta_fim p todas :
  forall n s tp tv,
    (List.length todas < n)%nat ->
    Forall (fun l => ~ palavra_literal (lower l)) todas ->
    repetir_ate n (perguntar_sim_nao_corpo p) (Mundo todas s tp tv)
    = (Levanta EOFError,
       Mundo [] (Input p :: recusas p (List.length todas) s) tp tv).
Proof.
  induction todas as [| l todas IH]; intros n s tp tv Hn Htodas.
  - destruct n as [| n]; [simpl in Hn; lia |]. reflexivity.
  - destruct n as [| n]; [simpl in Hn; lia |].
    inversion Htodas as [| ? ? Hl Htodas']; subst.
    apply resposta_recusada in Hl.
    simpl. unfold bind at 1. unfold perguntar_sim_nao_corpo, bind, input. simpl.
    rewrite Hl. unfold emite, ret. simpl.
    apply IH; auto. simpl in Hn. lia.
Qed.

(** C9, as the code has it.  The answer is put in lower case before it is
    looked up, so the prompt accepts a line exactly when its lower-case
    form is one of the three words.  It asks again after every other line:
    with the first accepted line after [antes] refused ones, it returns at
    that line, having complained once per refused line and leaving the
    lines after it unread, and the value returned is true exactly when the
    lower-case form is the affirmative word; with no accepted line it asks
    until the input ends. *)
Theorem perguntar_sim_nao_primeira_reconhecida
  (p : pergunta) (s : list evento)
  (tp : list Produto.linha) (tv : list Veiculo.linha) :
  (forall antes linha depois,
     Forall (fun l => ~ palavra_literal (lower l)) antes ->
     palavra_literal (lower linha) ->
     perguntar_sim_nao p (Mundo (antes ++ linha :: depois) s tp tv)
     = (Retorna (lower linha =? "sim")%string,
        Mundo depois (Input p :: recusas p (List.length antes) s) tp tv))
  /\ (forall todas,
        Forall (fun l => ~ palavra_literal (lower l)) todas ->
        perguntar_sim_nao p (Mundo todas s tp tv)
        = (Levanta EOFError,
           Mundo [] (Input p :: recusas p (List.length todas) s) tp tv)).
Proof.
  split.
  - intros antes linha depois Hant Hlin.
    unfold perguntar_sim_nao, enquanto_verdadeiro.
    apply repetir_ate_pergunta_aceita; [| assumption | assumption].
    unfold voltas. simpl. rewrite length_app. simpl. lia.
  - intros todas Htodas.
    unfold perguntar_sim_nao, enquanto_verdadeiro.
    apply repetir_ate_pergunta_fim; [| assumption].
    unfold voltas. simpl. lia.
Qed.

Lemma perguntar_sim_nao_primeira_reconhecida_exemplo :
  perguntar_sim_nao PRequerVentilacao
    (Mundo (["talvez"; "s"] ++ "Sim" :: ["nao"]) [] [] [])
  = (Retorna true,
     Mundo ["nao"]
       [Input PRequerVentilacao;
        MsgApenasSimOuNao; Input PRequerVentilacao;
        MsgApenasSimOuNao; Input PRequerVentilacao] [] [])
  /\ perguntar_sim_nao PRequerVentilacao (Mundo ["talvez"] [] [] [])
     = (Levanta EOFError,
        Mundo [] [Input PRequerVentilacao;
                  MsgApenasSimOuNao; Input PRequerVentilacao] [] []).
Proof.
  split.
  - apply (proj1 (perguntar_sim_nao_primeira_reconhecida
                    PRequerVentilacao [] [] []) ["talvez"; "s"] "Sim" ["nao"]).
    + repeat constructor; intros [H | [H | H]]; discriminate H.
    + left; reflexivity.
  - apply (proj2 (perguntar_sim_nao_primeira_reconhecida
                    PRequerVentilacao [] [] []) ["talvez"]).
    repeat constructor; intros [H | [H | H]]; discriminate H.
Defined.

(** C9 as the specification states it fails on capitals: the line below is
    none of the three words, and the prompt accepts it at once, without a
    complaint, and returns true. *)
Lemma perguntar_sim_nao_aceita_maiusculas :
  ~ palavra_literal "SIM"
  /\ perguntar_sim_nao PRequerVentilacao (Mundo ["SIM"] [] [] [])
     = (Retorna true, Mundo [] [Input PRequerVentilacao] [] []).
Proof.
  split.
  - intros [H | [H | H]]; discriminate H.
  - reflexivity.
Qed.

(* ------------------------------------------------------------------ *)
(** ** No loop of the program meets its bound *)

Create HintDb regularidade.

Lemma le_regular {A} (m : prog A) : le_uma_linha m -> regular m.
Proof.
  intros H w r w' E. destruct (H w r w' E) as (H1 & H2 & _). auto.
Qed.

Lemma regular_ret {A} (a : A) : regular (ret a).
Proof.
  intros w r w' E. unfold ret in E. inversion E; subst. split; [discriminate | lia].
Qed.

Lemma regular_levanta {A} (e : excecao) : regular (@levanta A e).
Proof.
  intros w r w' E. unfold levanta in E. inversion E; subst. split; [discriminate | lia].
Qed.

Lemma regular_emite (e : evento) : regular (emite e).
Proof.
  intros w r w' E. unfold emite in E. inversion E; subst. simpl.
  split; [discriminate | lia].
Qed.

Lemma le_input (p : pergunta) : le_uma_linha (input p).
Proof.
  intros w r w' E. unfold input in E.
  destruct (entrada w) as [| l ls] eqn:Ew; inversion E; subst; simpl.
  - repeat split; try discriminate; try lia. intros H. now elim H.
  - repeat split; try discriminate; lia.
Qed.

Lemma regular_bind {A B} (m : prog A) (k : A -> prog B) :
  regular m -> (forall a, regular (k a)) -> regular (bind m k).
Proof.
  intros Hm Hk w r w' E. unfold bind in E.
  destruct (m w) as [[a | e |] w1] eqn:Em.
  - destruct (Hm _ _ _ Em) as [_ H1]. destruct (Hk a _ _ _ E) as [H2 H3].
    split; [exact H2 | lia].
  - inversion E; subst. destruct (Hm _ _ _ Em) as [_ H1]. split; [discriminate | lia].
  - destruct (Hm _ _ _ Em) as [H _]. now elim H.
Qed.

Lemma le_bind {A B} (m : prog A) (k : A -> prog B) :
  le_uma_linha m -> (forall a, regular (k a)) -> le_uma_linha (bind m k).
Proof.
  intros Hm Hk w r w' E. unfold bind in E.
  destruct (m w) as [[a | e |] w1] eqn:Em.
  - destruct (Hm _ _ _ Em) as (_ & H1 & H1'). destruct (Hk a _ _ _ E) as [H2 H3].
    assert (List.length (entrada w1) < List.length (entrada w))%nat
      by (apply H1'; discriminate).
    repeat split; [exact H2 | lia | intros _; lia].
  - inversion E; subst. destruct (Hm _ _ _ Em) as (_ & H1 & H1').
    repeat split; [discriminate | lia |].
    intros Hne. apply H1'. intros Heq. apply Hne. now inversion Heq.
  - destruct (Hm _ _ _ Em) as [H _]. now elim H.
Qed.

Lemma le_emite_bind {B} (e : evento) (k : prog B) :
  le_uma_linha k -> le_uma_linha (emite e ;; k).
Proof.
  intros Hk w r w' E. unfold bind, emite in E.
  destruct (Hk _ _ _ E) as (H1 & H2 & H3). simpl in *. auto.
Qed.

Lemma regular_exceto {A} (m h : prog A) :
  regular m -> regular h -> regular (exceto_ValueError m h).
Proof.
  intros Hm Hh w r w' E. unfold exceto_ValueError in E.
  destruct (m w) as [[a | e |] w1] eqn:Em.
  - inversion E; subst. exact (Hm _ _ _ Em).
  - destruct (Hm _ _ _ Em) as [_ H1].
    destruct e; try (inversion E; subst; split; [discriminate | lia]).
    destruct (Hh _ _ _ E) as [H2 H3]. split; [exact H2 | lia].
  - destruct (Hm _ _ _ Em) as [H _]. now elim H.
Qed.

Lemma le_exceto {A} (m h : prog A) :
  le_uma_linha m -> regular h -> le_uma_linha (exceto_ValueError m h).
Proof.
  intros Hm Hh w r w' E. unfold exceto_ValueError in E.
  destruct (m w) as [[a | e |] w1] eqn:Em.
  - inversion E; subst. exact (Hm _ _ _ Em).
  - destruct (Hm _ _ _ Em) as (_ & H1 & H1').
    destruct e; try (inversion E; subst; repeat split; [discriminate | lia | exact H1']).
    destruct (Hh _ _ _ E) as [H2 H3].
    assert (List.length (entrada w1) < List.length (entrada w))%nat
      by (apply H1'; discriminate).
    repeat split; [exact H2 | lia | intros _; lia].
  - destruct (Hm _ _ _ Em) as [H _]. now elim H.
Qed.

Lemma le_repetir_ate {A} (corpo : prog (option A)) :
  le_uma_linha corpo ->
  forall n w r w',
    (List.length (entrada w) < n)%nat ->
    repetir_ate n corpo w = (r, w') ->
    r <> Esgotado
    /\ (List.length (entrada w') <= List.length (entrada w))%nat
    /\ (r <> Levanta EOFError ->
        (List.length (entrada w') < List.length (entrada w))%nat).
Proof.
  intros Hc n. induction n as [| n IH]; intros w r w' Hn E; [lia |].
  simpl in E. unfold bind in E.
  destruct (corpo w) as [[[a |] | e |] w1] eqn:Ec;
    destruct (Hc _ _ _ Ec) as (H0 & H1 & H1').
  - unfold ret in E. inversion E; subst.
    repeat split; [discriminate | lia | intros _; apply H1'; discriminate].
  - assert (List.length (entrada w1) < List.length (entrada w))%nat
      by (apply H1'; discriminate).
    destruct (IH w1 r w') as (H2 & H3 & _); [lia | exact E |].
    repeat split; [exact H2 | lia | intros _; lia].
  - inversion E; subst. repeat split; [discriminate | lia |].
    intros Hne. apply H1'. intros Heq. apply Hne. now inversion Heq.
  - now elim H0.
Qed.

Lemma le_enquanto_verdadeiro {A} (corpo : prog (option A)) :
  le_uma_linha corpo -> le_uma_linha (enquanto_verdadeiro corpo).
Proof.
  intros Hc w r w' E. unfold enquanto_verdadeiro in E.
  apply (le_repetir_ate corpo Hc (voltas w)); [unfold voltas; lia | exact E].
Qed.

#[local] Hint Resolve regular_ret regular_levanta regular_emite le_input
  : regularidade.

(** Goals [regular m] and [le_uma_linha m] on a program built with the
    combinators are split along its structure. *)
Ltac regularidade :=
  repeat first
    [ progress intros
    | solve [auto with regularidade]
    | apply le_regular; solve [auto with regularidade]
    | apply regular_bind
    | apply regular_exceto
    | apply le_exceto
    | apply le_enquanto_verdadeiro
    | apply le_emite_bind
    | apply le_bind
    | match goal with
      | |- regular (match ?x with _ => _ end) => destruct x
      | |- le_uma_linha (match ?x with _ => _ end) => destruct x
      end ].

Lemma le_perguntar_sim_nao (p : pergunta) : le_uma_linha (perguntar_sim_nao p).
Proof. unfold perguntar_sim_nao, perguntar_sim_nao_corpo. regularidade. Qed.

Lemma le_input_int (p : pergunta) : le_uma_linha (input_int p).
Proof. unfold input_int. regularidade. Qed.

Lemma le_input_float amb (p : pergunta) : le_uma_linha (input_float amb p).
Proof. unfold input_float. regularidade. Qed.

Lemma regular_valor_nulo campo nome_campo : regular (valor_nulo campo nome_campo).
Proof. unfold valor_nulo. regularidade. Qed.

Lemma regular_validar_positivo numero : regular (validar_positivo numero).
Proof. unfold validar_positivo. regularidade. Qed.

#[local] Hint Resolve le_perguntar_sim_nao le_input_int le_input_float
  regular_valor_nulo regular_validar_positivo : regularidade.

Lemma regular_grava_produto amb d : regular (grava_produto amb d).
Proof.
  intros w r w' E. unfold grava_produto in E.
  destruct (inserir_produto amb d (tabela_produtos w)).
  - exact (regular_emite _ _ _ _ E).
  - inversion E; subst. simpl. split; [discriminate | lia].
Qed.

Lemma regular_grava_transporte amb d : regular (grava_transporte amb d).
Proof.
  intros w r w' E. unfold grava_transporte in E.
  destruct (inserir_veiculo amb d (tabela_veiculos w)).
  - exact (regular_emite _ _ _ _ E).
  - inversion E; subst. simpl. split; [discriminate | lia].
Qed.

Lemma regular_consultar_produtos : regular consultar_produtos.
Proof.
  intros w r w' E. unfold consultar_produtos in E. inversion E; subst.
  split; [discriminate | lia].
Qed.

Lemma regular_consultar_veiculos : regular consultar_veiculos.
Proof.
  intros w r w' E. unfold consultar_veiculos in E. inversion E; subst.
  split; [discriminate | lia].
Qed.

#[local] Hint Resolve regular_grava_produto regular_grava_transporte
  regular_consultar_produtos regular_consultar_veiculos : regularidade.

Lemma le_dados_coletados_produtos amb : le_uma_linha (dados_coletados_produtos amb).
Proof. unfold dados_coletados_produtos, coleta_produto. regularidade. Qed.

Lemma le_dados_coletados_transporte amb :
  le_uma_linha (dados_coletados_transporte amb).
Proof. unfold dados_coletados_transporte, coleta_transporte. regularidade. Qed.

Lemma regular_listar_produtos : regular listar_produtos.
Proof. unfold listar_produtos. regularidade. Qed.

Lemma regular_listar_veiculos : regular listar_veiculos.
Proof. unfold listar_veiculos. regularidade. Qed.

#[local] Hint Resolve le_dados_coletados_produtos le_dados_coletados_transporte
  regular_listar_produtos regular_listar_veiculos : regularidade.

Lemma regular_compara p veiculo_df : regular (compara p veiculo_df).
Proof. unfold compara, mostra_veiculo. regularidade. Qed.

#[local] Hint Resolve regular_compara : regularidade.

Lemma regular_comparar_veiculo_ate n :
  forall w r w',
    (List.length (entrada w) < n)%nat ->
    comparar_veiculo_ate n w = (r, w') ->
    r <> Esgotado /\ (List.length (entrada w') <= List.length (entrada w))%nat.
Proof.
  induction n as [| n IH]; intros w r w' Hn E; [lia |].
  simpl in E.
  unfold bind at 1 in E. unfold consultar_veiculos at 1 in E.
  unfold bind at 1 in E.
  destruct (listar_produtos w) as [[produtos | e |] w1] eqn:El;
    destruct (regular_listar_produtos _ _ _ El) as [H0 H1].
  2: { inversion E; subst. split; [discriminate | lia]. }
  2: { now elim H0. }
  destruct produtos as [linhas |].
  2: { assert (R : regular (emite MsgNaoHaProdutos ;; @ret (option bool) None))
         by regularidade.
       destruct (R _ _ _ E). split; [assumption | lia]. }
  unfold bind at 1 in E.
  destruct (input PIdProduto w1) as [[id | e |] w2] eqn:Ei;
    destruct (le_input _ _ _ _ Ei) as (H2 & H3 & H3').
  2: { inversion E; subst. split; [discriminate | lia]. }
  2: { now elim H2. }
  assert (Hlt : (List.length (entrada w2) < List.length (entrada w1))%nat)
    by (apply H3'; discriminate).
  assert (Hnao : forall r0 w0,
             (emite Cls ;; emite (MsgProdutoNaoEncontrado id) ;;
              comparar_veiculo_ate n) w2 = (r0, w0) ->
             r0 <> Esgotado
             /\ (List.length (entrada w0) <= List.length (entrada w2))%nat).
  { intros r0 w0 E0. unfold bind, emite in E0.
    apply IH in E0; simpl in *; [exact E0 | lia]. }
  destruct (isdigit id).
  - destruct (int_de_str id) as [numero |].
    + destruct (produto_de_id numero linhas) as [p |].
      * destruct (regular_compara _ _ _ _ _ E). split; [assumption | lia].
      * destruct (Hnao _ _ E). split; [assumption | lia].
    + inversion E; subst. split; [discriminate | lia].
  - destruct (Hnao _ _ E). split; [assumption | lia].
Qed.

Lemma regular_comparar_veiculo : regular comparar_veiculo.
Proof.
  intros w r w' E. unfold comparar_veiculo in E.
  apply (regular_comparar_veiculo_ate (voltas w)); [unfold voltas; lia | exact E].
Qed.

Lemma regular_salvar_dados_produtos_json amb :
  regular (salvar_dados_produtos_json amb).
Proof. unfold salvar_dados_produtos_json, escreve_produto, abrir. regularidade. Qed.

Lemma regular_salvar_veiculo_json amb : regular (salvar_veiculo_json amb).
Proof. unfold salvar_veiculo_json, json_dump_veiculo, abrir. regularidade. Qed.

#[local] Hint Resolve regular_comparar_veiculo
  regular_salvar_dados_produtos_json regular_salvar_veiculo_json : regularidade.

Lemma regular_opcao_seis amb : regular (opcao_seis amb).
Proof. unfold opcao_seis. regularidade. Qed.

Lemma le_menu : le_uma_linha menu.
Proof. unfold menu, menu_corpo. regularidade. Qed.

Lemma regular_sair amb : regular (sair amb).
Proof. unfold sair. regularidade. Qed.

#[local] Hint Resolve regular_opcao_seis le_menu regular_sair : regularidade.

Lemma regular_despacha amb escolha : regular (despacha amb escolha).
Proof. unfold despacha. regularidade. Qed.

(* ------------------------------------------------------------------ *)
(** ** The dispatcher and the main block *)

Lemma opcao_escolhida_ate_levanta amb n :
  forall escolha w,
    (List.length (entrada w) < n)%nat ->
    exists e w', opcao_escolhida_ate amb n escolha w = (Levanta e, w').
Proof.
  induction n as [| n IH]; intros escolha w Hn; [lia |].
  simpl. unfold bind at 1.
  destruct (despacha amb escolha w) as [[[] | e |] w1] eqn:Ed;
    destruct (regular_despacha _ _ _ _ _ Ed) as [H0 H1].
  2: { eauto. }
  2: { now elim H0. }
  unfold bind at 1.
  destruct (input PEnter w1) as [[l | e |] w2] eqn:Ei;
    destruct (le_input _ _ _ _ Ei) as (H2 & H3 & H3').
  2: { eauto. }
  2: { now elim H2. }
  assert (Hlt : (List.length (entrada w2) < List.length (entrada w1))%nat)
    by (apply H3'; discriminate).
  unfold bind at 1. unfold emite at 1.
  unfold bind at 1.
  match goal with
  | |- context [menu ?x] =>
      destruct (menu x) as [[escolha' | e |] w3] eqn:Em;
        destruct (le_menu _ _ _ Em) as (H4 & H5 & _)
  end.
  - simpl in H5. apply IH. lia.
  - eauto.
  - now elim H4.
Qed.

(** C10, as the code has it.  The dispatcher never returns: whatever the
    choice and the lines typed, it ends by raising (the exit of option 7,
    the end of the input, or an error nothing catches).  So, when the
    connection opens, a run of the main block is a run of the menu and the
    dispatcher, and the product registration placed after the dispatcher
    call is not executed. *)
Theorem coleta_apos_o_menu_nunca_executada (amb : ambiente) :
  (forall escolha w,
     exists e w', opcao_escolhida amb escolha w = (Levanta e, w'))
  /\ (forall w,
        conecta amb = true ->
        principal amb w
        = (escolha <- menu ;; opcao_escolhida amb escolha) w).
Proof.
  assert (H : forall escolha w,
             exists e w', opcao_escolhida amb escolha w = (Levanta e, w')).
  { intros escolha w. unfold opcao_escolhida.
    apply opcao_escolhida_ate_levanta. unfold voltas. lia. }
  split; [exact H |].
  intros w Hc. unfold principal. rewrite Hc.
  unfold bind at 1 3.
  destruct (menu w) as [[escolha | e |] w1]; try reflexivity.
  unfold bind. destruct (H escolha w1) as (e & w' & ->). reflexivity.
Qed.

Lemma coleta_apos_o_menu_nunca_executada_exemplo :
  (forall escolha w,
     exists e w', opcao_escolhida amb_exemplo escolha w = (Levanta e, w'))
  /\ principal amb_exemplo (Mundo ["7"] [] [] [])
     = (escolha <- menu ;; opcao_escolhida amb_exemplo escolha)
         (Mundo ["7"] [] [] []).
Proof.
  split.
  - exact (proj1 (coleta_apos_o_menu_nunca_executada amb_exemplo)).
  - apply (proj2 (coleta_apos_o_menu_nunca_executada amb_exemplo)).
    reflexivity.
Defined.

(** C10 as the specification states it fails on the run that chooses
    option 7: the dispatcher loop ends there, by the exit, the program
    stops, and the name of a product was never asked. *)
Lemma sair_sem_coleta_final :
  let fim := principal amb_exemplo (Mundo ["7"] [] [] []) in
  fst fim = Levanta (SystemExit 0)
  /\ historico (snd fim)
     = [ MsgMenu; Input PEscolha; Cls; Cls; MsgSaindo; FechaConexao ]
  /\ ~ In (Input PNomeProduto) (historico (snd fim)).
Proof.
  repeat split.
  simpl. intros H. repeat (destruct H as [H | H]; [discriminate H |]). exact H.
Qed.

(* ------------------------------------------------------------------ *)
(** ** Export of a product *)

Lemma produto_de_json_dados_produto (l : Produto.linha) :
  produto_de_json (dados_produto l) = Some l.
Proof. destruct l. reflexivity. Qed.

Lemma colunas_dados_produto (l : Produto.linha) :
  map fst (dados_produto l) = colunas_produto.
Proof. reflexivity. Qed.

Lemma existsb_id_produto (r : Produto.linha) linhas :
  In r linhas ->
  existsb (fun l => Produto.id_produto l =? Produto.id_produto r) linhas = true.
Proof.
  intros H. apply existsb_exists. exists r. split; [exact H | apply Z.eqb_refl].
Qed.

Lemma filter_id_produto_ausente (n : Z) linhas :
  ~ In n (map Produto.id_produto linhas) ->
  filter (fun l => Produto.id_produto l =? n) linhas = [].
Proof.
  induction linhas as [| x linhas IH]; intros H; [reflexivity |].
  simpl in *. destruct (Produto.id_produto x =? n) eqn:E.
  - apply Z.eqb_eq in E. exfalso. apply H. now left.
  - apply IH. intros Hn. apply H. now right.
Qed.

Lemma filter_id_produto_unico (r : Produto.linha) linhas :
  In r linhas ->
  NoDup (map Produto.id_produto linhas) ->
  filter (fun l => Produto.id_produto l =? Produto.id_produto r) linhas = [r].
Proof.
  induction linhas as [| x linhas IH]; intros Hin Hnd; [destruct Hin |].
  simpl in Hnd. inversion Hnd as [| ? ? Hx Hnd']; subst. simpl.
  destruct Hin as [-> | Hin].
  - rewrite Z.eqb_refl. f_equal. now apply filter_id_produto_ausente.
  - destruct (Produto.id_produto x =? Produto.id_produto r) eqn:E.
    + apply Z.eqb_eq in E. exfalso. apply Hx. rewrite E. now apply in_map.
    + now apply IH.
Qed.

Lemma salvar_dados_produtos_json_passos amb x linhas' id resto s tv :
  let linhas := x :: linhas' in
  let w := Mundo resto
             (Input PIdProdutoJson :: MsgListados :: TabelaProdutos linhas
              :: MsgListarProdutos :: s) linhas tv in
  salvar_dados_produtos_json amb (Mundo (id :: resto) s linhas tv)
  = if isdigit id then
      match int_de_str id with
      | None => (Levanta ValueError, w)
      | Some n =>
          if existsb (fun l => Produto.id_produto l =? n) linhas then
            match filter (fun l => Produto.id_produto l =? n) linhas with
            | produto_escolhido :: _ => escreve_produto amb produto_escolhido w
            | [] => (Levanta IndexError, w)
            end
          else emite MsgIdProdutoInvalido w
      end
    else emite MsgIdProdutoInvalido w.
Proof.
  intros linhas w. subst linhas w.
  cbv -[existsb filter isdigit int_de_str escreve_produto Z.eqb].
  destruct (isdigit id); [| reflexivity].
  destruct (int_de_str id) as [n |]; [| reflexivity].
  destruct (existsb _ _); [| reflexivity].
  destruct (filter _ _); reflexivity.
Qed.

(** C8. For every stored product selected by a valid identifier (a digit
    string whose value is the identifier of a row of the table, the
    identifiers of the table being unique), and provided the file named
    after the product opens for writing, the export writes one file, of
    that name, whose object has exactly the nine fields of the record, and
    reading the fields back gives the stored record. *)
Theorem exportacao_de_produto_fiel
  (amb : ambiente)
  (linhas : list Produto.linha) (r : Produto.linha) (id : string)
  (resto : list string) (s : list evento) (tv : list Veiculo.linha)
  (Hr : In r linhas)
  (Hunicos : NoDup (map Produto.id_produto linhas))
  (Hdigitos : isdigit id = true)
  (Hid : int_de_str id = Some (Produto.id_produto r))
  (Habre : open_para_escrita amb
             ("produto_" ++ Produto.produto r ++ ".json")%string = None) :
  exists conteudo,
    salvar_dados_produtos_json amb (Mundo (id :: resto) s linhas tv)
    = (Retorna tt,
       Mundo resto
         (MsgSalvo (Produto.produto r)
                   ("produto_" ++ Produto.produto r ++ ".json")%string
          :: EscreveArquivo ("produto_" ++ Produto.produto r ++ ".json")%string
               conteudo
          :: Input PIdProdutoJson :: MsgListados :: TabelaProdutos linhas
          :: MsgListarProdutos :: s)
         linhas tv)
    /\ map fst conteudo = colunas_produto
    /\ produto_de_json conteudo = Some r.
Proof.
  exists (dados_produto r).
  split; [| split; [apply colunas_dados_produto | apply produto_de_json_dados_produto]].
  destruct linhas as [| x linhas']; [destruct Hr |].
  rewrite salvar_dados_produtos_json_passos. cbv zeta.
  rewrite Hdigitos, Hid.
  rewrite (existsb_id_produto r _ Hr).
  rewrite (filter_id_produto_unico r _ Hr Hunicos).
  unfold escreve_produto, abrir. cbv zeta. rewrite Habre.
  reflexivity.
Qed.

Lemma exportacao_de_produto_fiel_exemplo :
  exists conteudo,
    salvar_dados_produtos_json amb_exemplo (Mundo ["2"; "7"] [] [soja; leite] [])
    = (Retorna tt,
       Mundo ["7"]
         (MsgSalvo (Produto.produto leite)
                   ("produto_" ++ Produto.produto leite ++ ".json")%string
          :: EscreveArquivo ("produto_" ++ Produto.produto leite ++ ".json")%string
               conteudo
          :: Input PIdProdutoJson :: MsgListados :: TabelaProdutos [soja; leite]
          :: MsgListarProdutos :: [])
         [soja; leite] [])
    /\ map fst conteudo = colunas_produto
    /\ produto_de_json conteudo = Some leite.
Proof.
  apply (exportacao_de_produto_fiel amb_exemplo
           [soja; leite] leite "2" ["7"] [] []).
  - right; left; reflexivity.
  - simpl. repeat constructor; simpl; intuition discriminate.
  - reflexivity.
  - reflexivity.
  - reflexivity.
Defined.

(* ------------------------------------------------------------------ *)
(** ** The compatibility check on the console *)

(** One call of [comparar_veiculo] with a product in the table, up to the
    line it reads. *)
Lemma comparar_veiculo_passos x linhas' id resto s tv :
  let linhas := x :: linhas' in
  let w := Mundo resto
             (Input PIdProduto :: MsgListados :: TabelaProdutos linhas
              :: MsgListarProdutos :: s) linhas tv in
  let nao_encontrado :=
    comparar_veiculo
      (Mundo resto (MsgProdutoNaoEncontrado id :: Cls :: saida w) linhas tv) in
  comparar_veiculo (Mundo (id :: resto) s linhas tv)
  = if isdigit id then
      match int_de_str id with
      | None => (Levanta ValueError, w)
      | Some numero =>
          match produto_de_id numero linhas with
          | Some p => compara p tv w
          | None => nao_encontrado
          end
      end
    else nao_encontrado.
Proof.
  intros linhas w nao_encontrado. subst linhas w nao_encontrado.
  unfold comparar_veiculo, voltas.
  cbn [entrada List.length].
  remember (S (List.length resto)) as n eqn:En.
  cbn [comparar_veiculo_ate].
  cbv -[comparar_veiculo_ate isdigit int_de_str produto_de_id compara].
  destruct (isdigit id); [| reflexivity].
  destruct (int_de_str id) as [numero |]; [| reflexivity].
  destruct (produto_de_id numero (x :: linhas')); reflexivity.
Qed.

(** The part of C3 the code keeps: a line that is not a digit string, or
    a number that identifies no product of the table, is answered by the
    not-found message, and the operation starts again on the lines that
    follow: it lists the products and asks once more. *)
Lemma comparar_veiculo_nao_encontrado x linhas' id resto s tv :
  isdigit id = false
  \/ (exists numero, int_de_str id = Some numero
                     /\ produto_de_id numero (x :: linhas') = None) ->
  comparar_veiculo (Mundo (id :: resto) s (x :: linhas') tv)
  = comparar_veiculo
      (Mundo resto
         (MsgProdutoNaoEncontrado id :: Cls :: Input PIdProduto :: MsgListados
          :: TabelaProdutos (x :: linhas') :: MsgListarProdutos :: s)
         (x :: linhas') tv).
Proof.
  intros H. rewrite comparar_veiculo_passos. cbv zeta.
  destruct H as [-> | (numero & Hn & Hp)]; [reflexivity |].
  rewrite Hn, Hp. destruct (isdigit id); reflexivity.
Qed.

(** With no vehicle in the table and the identifier of a product typed,
    the operation reaches the loop, finds nothing, and prints the message
    of the search that failed, followed by the empty listing. *)
Lemma comparar_veiculo_tabela_vazia x linhas' id numero p resto s :
  isdigit id = true ->
  int_de_str id = Some numero ->
  produto_de_id numero (x :: linhas') = Some p ->
  comparar_veiculo (Mundo (id :: resto) s (x :: linhas') [])
  = (Retorna (Some false),
     Mundo resto
       (MsgNaoHaVeiculosCadastrados :: MsgListarVeiculos :: LinhaEmBranco
        :: MsgNenhumVeiculo (Produto.produto p)
        :: Input PIdProduto :: MsgListados
        :: TabelaProdutos (x :: linhas') :: MsgListarProdutos :: s)
       (x :: linhas') []).
Proof.
  intros Hd Hn Hp. rewrite comparar_veiculo_passos. cbv zeta.
  rewrite Hd, Hn, Hp. reflexivity.
Qed.

(** C2: what the code does.  With one product registered, no vehicle, and
    the identifier of the product typed, the operation does not print the
    nothing-to-compare message: the list of vehicles the query returns is
    empty, not [None], so the test in front of that message fails, and the
    message printed is the one of a search that found no compatible
    vehicle. *)
Theorem comparar_veiculo_sem_veiculos_cadastrados :
  let fim := comparar_veiculo (Mundo ["1"] [] [soja] []) in
  fst fim = Retorna (Some false)
  /\ historico (snd fim)
     = [ MsgListarProdutos; TabelaProdutos [soja]; MsgListados;
         Input PIdProduto;
         MsgNenhumVeiculo "soja"; LinhaEmBranco;
         MsgListarVeiculos; MsgNaoHaVeiculosCadastrados ]
  /\ ~ In MsgNaoHaVeiculosParaComparacao (historico (snd fim)).
Proof.
  repeat split.
  simpl. intros H. repeat (destruct H as [H | H]; [discriminate H |]). exact H.
Qed.

(** C3: what the code does.  The superscript two passes [isdigit] and is
    refused by [int]: the ValueError leaves [comparar_veiculo] before any
    not-found message, and, nothing catching it under option 5 of the
    menu, it ends the program. *)
Theorem comparar_veiculo_digito_sobrescrito :
  let fim := comparar_veiculo
               (Mundo [dois_sobrescrito; "1"] [] [soja] [caminhao_grande]) in
  let programa := principal amb_exemplo
                    (Mundo ["5"; dois_sobrescrito; "1"] [] [soja] [caminhao_grande]) in
  isdigit dois_sobrescrito = true
  /\ int_de_str dois_sobrescrito = None
  /\ fst fim = Levanta ValueError
  /\ historico (snd fim)
     = [ MsgListarProdutos; TabelaProdutos [soja]; MsgListados;
         Input PIdProduto ]
  /\ entrada (snd fim) = ["1"]
  /\ fst programa = Levanta ValueError
  /\ historico (snd programa)
     = [ MsgMenu; Input PEscolha; Cls;
         MsgListarProdutos; TabelaProdutos [soja]; MsgListados;
         Input PIdProduto ].
Proof.
  repeat split.
Qed.

(* ------------------------------------------------------------------ *)
(** ** The registrations *)

Lemma sim_ou_nao_valida (b : bool) : flag_valida (sim_ou_nao b).
Proof. destruct b; [left | right]; reflexivity. Qed.

Lemma coleta_transporte_zero amb t s tp tv :
  float_de_str amb "5" = Some t ->
  coleta_transporte amb (Mundo ["0"; "5"; "sim"; "nao"] s tp tv)
  = (Retorna (Some (DadosTransporte 0 t "SIM" "NAO")),
     Mundo []
       (Input PTemProtecaoSolar :: Input PTemVentilacao
        :: Input PTemperaturaTransporte :: Input PCapacidade :: s) tp tv).
Proof.
  intros Ht. unfold coleta_transporte, exceto_ValueError.
  unfold input_int, input_float.
  unfold bind at 1. unfold bind at 1. unfold input at 1.
  cbn [entrada saida tabela_produtos tabela_veiculos tl].
  change (int_de_str "0") with (Some 0).
  cbv beta iota. unfold ret at 1.
  unfold bind at 1. unfold bind at 1. unfold input at 1.
  cbn [entrada saida tabela_produtos tabela_veiculos tl].
  rewrite Ht. unfold ret at 1.
  vm_compute. reflexivity.
Qed.

Lemma dados_coletados_transporte_zero amb t s tp tv :
  float_de_str amb "5" = Some t ->
  let d := DadosTransporte 0 t "SIM" "NAO" in
  let lido := Input PTemProtecaoSolar :: Input PTemVentilacao
              :: Input PTemperaturaTransporte :: Input PCapacidade :: s in
  dados_coletados_transporte amb (Mundo ["0"; "5"; "sim"; "nao"] s tp tv)
  = (Retorna d,
     match inserir_veiculo amb d tv with
     | inr linhas => Mundo [] (MsgDadosGravados :: lido) tp linhas
     | inl mensagem => Mundo [] (MsgErroAoInserir mensagem :: lido) tp tv
     end).
Proof.
  intros Ht d lido. subst d lido.
  unfold dados_coletados_transporte, enquanto_verdadeiro, voltas.
  cbn [entrada List.length repetir_ate].
  unfold bind at 1. unfold bind at 1.
  rewrite (coleta_transporte_zero amb t s tp tv Ht).
  unfold ret at 1. unfold bind, grava_transporte, emite, ret.
  cbn [entrada saida tabela_produtos tabela_veiculos].
  destruct (inserir_veiculo amb _ tv); reflexivity.
Qed.

(** C6: what the code does.  The capacity typed goes into the record as
    [int] read it, with no test of its sign: typing 0 (then a temperature
    and the two answers) registers a vehicle of capacity 0, returned and
    handed to the INSERT. *)
Theorem dados_coletados_transporte_capacidade_zero
  (amb : ambiente) (t : num) (s : list evento)
  (tp : list Produto.linha) (tv : list Veiculo.linha)
  (Ht : float_de_str amb "5" = Some t) :
  let d := DadosTransporte 0 t "SIM" "NAO" in
  let fim := dados_coletados_transporte amb
               (Mundo ["0"; "5"; "sim"; "nao"] s tp tv) in
  fst fim = Retorna d
  /\ tabela_veiculos (snd fim)
     = match inserir_veiculo amb d tv with
       | inr linhas => linhas
       | inl _ => tv
       end
  /\ ~ 0 < dt_capacidade d.
Proof.
  intros d fim. subst d fim.
  rewrite (dados_coletados_transporte_zero amb t s tp tv Ht). cbv zeta.
  destruct (inserir_veiculo amb _ tv); repeat split; simpl; lia.
Qed.

Lemma dados_coletados_transporte_capacidade_zero_exemplo :
  let d := DadosTransporte 0 (num_de_Z 5) "SIM" "NAO" in
  let fim := dados_coletados_transporte amb_exemplo
               (Mundo ["0"; "5"; "sim"; "nao"] [] [] []) in
  fst fim = Retorna d
  /\ tabela_veiculos (snd fim)
     = match inserir_veiculo amb_exemplo d [] with
       | inr linhas => linhas
       | inl _ => []
       end
  /\ ~ 0 < dt_capacidade d.
Proof.
  apply (dados_coletados_transporte_capacidade_zero
           amb_exemplo (num_de_Z 5) [] [] []).
  reflexivity.
Defined.

(** What a finished loop returned, one of its rounds returned. *)
Lemma repetir_ate_retorna {A} (corpo : prog (option A)) n :
  forall w a w',
    repetir_ate n corpo w = (Retorna a, w') ->
    exists w0, corpo w0 = (Retorna (Some a), w').
Proof.
  induction n as [| n IH]; intros w a w' E; [discriminate E |].
  simpl in E. unfold bind in E.
  destruct (corpo w) as [[[b |] | e |] w1] eqn:Ec; try discriminate E.
  - unfold ret in E. inversion E; subst. now exists w.
  - now apply IH in E.
Qed.

Lemma bind_retorna {A B} (m : prog A) (k : A -> prog B) w b w' :
  bind m k w = (Retorna b, w') ->
  exists a w1, m w = (Retorna a, w1) /\ k a w1 = (Retorna b, w').
Proof.
  unfold bind. destruct (m w) as [[a | e |] w1]; try discriminate.
  intros E. now exists a, w1.
Qed.

Lemma valor_nulo_falso campo nome_campo w w' :
  valor_nulo campo nome_campo w = (Retorna false, w') -> campo <> "".
Proof.
  destruct campo; [| discriminate]. intros E. cbv in E. discriminate E.
Qed.

Lemma validar_positivo_falso numero w w' :
  validar_positivo numero w = (Retorna false, w') -> 0 < numero.
Proof.
  unfold validar_positivo, exceto_ValueError.
  destruct (numero <=? 0) eqn:E; [intros H; cbv in H; discriminate H |].
  intros _. apply Z.leb_gt in E. exact E.
Qed.

(** The sibling of C6: every product the registration returns has a name,
    an origin and a destination that are not empty, a quantity that is
    strictly positive, and two flags that are the persisted literals. *)
Lemma dados_coletados_produtos_validos amb w d w' :
  dados_coletados_produtos amb w = (Retorna d, w') ->
  dp_produto d <> "" /\ dp_origem d <> "" /\ dp_destino d <> ""
  /\ 0 < dp_quantidade d
  /\ flag_valida (dp_ventilacao d) /\ flag_valida (dp_protecao_solar d).
Proof.
  unfold dados_coletados_produtos. intros E.
  apply bind_retorna in E. destruct E as (d0 & w1 & E & E').
  apply bind_retorna in E'. destruct E' as ([] & w2 & _ & E').
  unfold ret in E'. inversion E'; subst d0 w2. clear E'.
  apply repetir_ate_retorna in E. destruct E as (w0 & E).
  unfold coleta_produto, exceto_ValueError in E.
  match type of E with
  | match ?m w0 with _ => _ end = _ =>
      destruct (m w0) as [[r | e |] w2] eqn:Em
  end.
  2: { destruct e; try discriminate E; cbv in E; discriminate E. }
  2: { discriminate E. }
  inversion E; subst r w2. clear E.
  apply bind_retorna in Em. destruct Em as (produto & w2 & _ & Em).
  apply bind_retorna in Em. destruct Em as ([|] & w3 & Hp & Em);
    [discriminate Em |].
  apply bind_retorna in Em. destruct Em as (origem & w4 & _ & Em).
  apply bind_retorna in Em. destruct Em as ([|] & w5 & Ho & Em);
    [discriminate Em |].
  apply bind_retorna in Em. destruct Em as (destino & w6 & _ & Em).
  apply bind_retorna in Em. destruct Em as ([|] & w7 & Hd & Em);
    [discriminate Em |].
  apply bind_retorna in Em. destruct Em as (quantidade & w8 & _ & Em).
  apply bind_retorna in Em. destruct Em as ([|] & w9 & Hq & Em);
    [discriminate Em |].
  apply bind_retorna in Em. destruct Em as (minima & w10 & _ & Em).
  apply bind_retorna in Em. destruct Em as (maxima & w11 & _ & Em).
  apply bind_retorna in Em. destruct Em as (ventilacao & w12 & _ & Em).
  apply bind_retorna in Em. destruct Em as (protecao & w13 & _ & Em).
  unfold ret in Em. inversion Em; subst. simpl.
  repeat split.
  - exact (valor_nulo_falso _ _ _ _ Hp).
  - exact (valor_nulo_falso _ _ _ _ Ho).
  - exact (valor_nulo_falso _ _ _ _ Hd).
  - exact (validar_positivo_falso _ _ _ Hq).
  - apply sim_ou_nao_valida.
  - apply sim_ou_nao_valida.
Qed.

(* ------------------------------------------------------------------ *)
(** ** Frames: what the calls write, keep and raise *)

Lemma quadro_refl P fixas w : quadro P fixas w w.
Proof.
  split; [exists []; split; [reflexivity | constructor] | auto].
Qed.

Lemma quadro_trans P fixas a b c :
  quadro P fixas a b -> quadro P fixas b c -> quadro P fixas a c.
Proof.
  intros [(n1 & E1 & F1) T1] [(n2 & E2 & F2) T2]. split.
  - exists (n2 ++ n1). split.
    + rewrite E2, E1. apply app_assoc.
    + apply Forall_app. auto.
  - intros H. destruct (T1 H) as [Ha Hb]. destruct (T2 H) as [Hc Hd].
    split; congruence.
Qed.

Lemma quadro_emite (P : evento -> Prop) fixas e w :
  P e ->
  quadro P fixas w
    (Mundo (entrada w) (e :: saida w) (tabela_produtos w) (tabela_veiculos w)).
Proof.
  intros He. split; simpl; [| auto].
  exists [e]. split; [reflexivity | constructor; auto].
Qed.

Lemma quadro_input (P : evento -> Prop) fixas p w :
  P (Input p) ->
  quadro P fixas w
    (Mundo (tl (entrada w)) (Input p :: saida w)
       (tabela_produtos w) (tabela_veiculos w)).
Proof.
  intros He. split; simpl; [| auto].
  exists [Input p]. split; [reflexivity | constructor; auto].
Qed.

Section Disciplina.

Variable P : evento -> Prop.
Variable fixas : bool.

Lemma disc_ret {A} E (a : A) : disciplinado P fixas E (ret a).
Proof.
  intros w r w' H. unfold ret in H. inversion H; subst.
  split; [apply quadro_refl | discriminate].
Qed.

Lemma disc_levanta {A} (E : excecao -> mundo -> Prop) e :
  (forall w, E e w) -> disciplinado P fixas E (@levanta A e).
Proof.
  intros He w r w' H. unfold levanta in H. inversion H; subst.
  split; [apply quadro_refl |]. intros e0 [= <-]. apply He.
Qed.

Lemma disc_emite E e : P e -> disciplinado P fixas E (emite e).
Proof.
  intros He w r w' H. unfold emite in H. inversion H; subst.
  split; [now apply quadro_emite | discriminate].
Qed.

Lemma disc_input (E : excecao -> mundo -> Prop) p :
  P (Input p) -> (forall w, E EOFError w) -> disciplinado P fixas E (input p).
Proof.
  intros He Hf w r w' H. unfold input in H.
  destruct (entrada w); inversion H; subst;
    (split; [now apply quadro_input |]).
  - intros e [= <-]. apply Hf.
  - discriminate.
Qed.

Lemma disc_bind {A B} E (m : prog A) (k : A -> prog B) :
  disciplinado P fixas E m ->
  (forall a, disciplinado P fixas E (k a)) ->
  disciplinado P fixas E (bind m k).
Proof.
  intros Hm Hk w r w' H. unfold bind in H.
  destruct (m w) as [[a | e |] w1] eqn:Em; destruct (Hm _ _ _ Em) as [Q1 X1].
  - destruct (Hk a _ _ _ H) as [Q2 X2].
    split; [exact (quadro_trans _ _ _ _ _ Q1 Q2) | exact X2].
  - inversion H; subst. split; [exact Q1 |].
    intros e0 [= <-]. now apply X1.
  - inversion H; subst. split; [exact Q1 | discriminate].
Qed.

Lemma disc_exceto {A} E (m h : prog A) :
  disciplinado P fixas (ou_ValueError E) m ->
  disciplinado P fixas E h ->
  disciplinado P fixas E (exceto_ValueError m h).
Proof.
  intros Hm Hh w r w' H. unfold exceto_ValueError in H.
  destruct (m w) as [[a | e |] w1] eqn:Em; destruct (Hm _ _ _ Em) as [Q1 X1].
  - inversion H; subst. split; [exact Q1 | discriminate].
  - destruct e;
      try (inversion H; subst; split; [exact Q1 |];
           intros e0 [= <-]; destruct (X1 _ eq_refl) as [Hd | He];
           [discriminate Hd | exact He]).
    destruct (Hh _ _ _ H) as [Q2 X2].
    split; [exact (quadro_trans _ _ _ _ _ Q1 Q2) | exact X2].
  - inversion H; subst. split; [exact Q1 | discriminate].
Qed.

Lemma disc_repetir_ate {A} E (corpo : prog (option A)) n :
  disciplinado P fixas E corpo ->
  disciplinado P fixas E (repetir_ate n corpo).
Proof.
  intros Hc. induction n as [| n IH].
  - intros w r w' H. simpl in H. inversion H; subst.
    split; [apply quadro_refl | discriminate].
  - simpl. apply disc_bind; [exact Hc |].
    intros [a |]; [apply disc_ret | exact IH].
Qed.

Lemma disc_enquanto_verdadeiro {A} E (corpo : prog (option A)) :
  disciplinado P fixas E corpo ->
  disciplinado P fixas E (enquanto_verdadeiro corpo).
Proof.
  intros Hc w r w' H. unfold enquanto_verdadeiro in H.
  exact (disc_repetir_ate E corpo (voltas w) Hc _ _ _ H).
Qed.

(** The two queries give [Some] list: what follows them is only ever run
    on a list. *)
Lemma disc_bind_consultar_veiculos {B} E
  (k : option (list Veiculo.linha) -> prog B) :
  (forall linhas, disciplinado P fixas E (k (Some linhas))) ->
  disciplinado P fixas E (bind consultar_veiculos k).
Proof.
  intros Hk w r w' H. unfold bind, consultar_veiculos in H.
  exact (Hk _ _ _ _ H).
Qed.

Lemma disc_bind_consultar_produtos {B} E
  (k : option (list Produto.linha) -> prog B) :
  (forall linhas, disciplinado P fixas E (k (Some linhas))) ->
  disciplinado P fixas E (bind consultar_produtos k).
Proof.
  intros Hk w r w' H. unfold bind, consultar_produtos in H.
  exact (Hk _ _ _ _ H).
Qed.

End Disciplina.

Lemma disc_fraco {A} (P P' : evento -> Prop) (fixas fixas' : bool)
  (E E' : excecao -> mundo -> Prop) (m : prog A) :
  (forall e, P e -> P' e) ->
  (fixas' = true -> fixas = true) ->
  (forall e w, E e w -> E' e w) ->
  disciplinado P fixas E m ->
  disciplinado P' fixas' E' m.
Proof.
  intros HP HF HE Hm w r w' H. destruct (Hm _ _ _ H) as [[(n & En & Fn) T] X].
  split; [split; [| auto] |].
  - exists n. split; [exact En |]. eapply Forall_impl; [| exact Fn]. exact HP.
  - intros e He. apply HE. now apply X.
Qed.

Create HintDb disciplina.

(** Side conditions: an event is one of those allowed, an exception is one
    of those allowed, a class of events or exceptions is within another. *)
Ltac obrigacao :=
  solve
    [ intros;
      unfold ou_ValueError, so_EOFError, qualquer_excecao,
        evento_de_exportacao, excecao_de_exportacao, sem_arquivo,
        evento_de_consulta, evento_de_cadastro, evento_do_menu,
        fim_do_programa in *;
      cbn in *;
      first
        [ exact I
        | reflexivity
        | assumption
        | tauto
        | solve [intuition (subst; cbn; try discriminate; try congruence; auto)]
        | match goal with
          | e : evento |- _ =>
              destruct e; cbn in *; solve [tauto | eauto | firstorder discriminate]
          end ] ].

(** A goal [disciplinado P fixas E m] is split along the program [m]; a call
    whose frame is already known is taken from the hints. *)
Ltac disciplina :=
  repeat first
    [ progress intros
    | solve [eapply disc_fraco; [ | | | solve [eauto with disciplina]]; obrigacao]
    | apply disc_ret
    | apply disc_levanta; obrigacao
    | apply disc_emite; obrigacao
    | apply disc_input; obrigacao
    | apply disc_bind_consultar_veiculos
    | apply disc_bind_consultar_produtos
    | apply disc_bind
    | apply disc_exceto
    | apply disc_enquanto_verdadeiro
    | match goal with
      | |- disciplinado _ _ _ (match ?x with _ => _ end) => destruct x
      end ].

Lemma disc_perguntar_sim_nao p :
  disciplinado (fun e => e = Input p \/ e = MsgApenasSimOuNao) true so_EOFError
    (perguntar_sim_nao p).
Proof. unfold perguntar_sim_nao, perguntar_sim_nao_corpo. disciplina. Qed.

Lemma disc_input_int (P : evento -> Prop) fixas (E : excecao -> mundo -> Prop) p :
  P (Input p) -> (forall w, E EOFError w) -> (forall w, E ValueError w) ->
  disciplinado P fixas E (input_int p).
Proof. intros. unfold input_int. disciplina. Qed.

Lemma disc_menu :
  disciplinado
    (fun e => e = MsgMenu \/ e = Input PEscolha \/ e = Cls \/ e = MsgEscolhaInvalida)
    true so_EOFError menu.
Proof. unfold menu, menu_corpo, input_int. disciplina. Qed.

Lemma disc_listar_produtos :
  disciplinado evento_de_consulta true (fun _ _ => False) listar_produtos.
Proof. unfold listar_produtos. disciplina. Qed.

Lemma disc_listar_veiculos :
  disciplinado evento_de_consulta true (fun _ _ => False) listar_veiculos.
Proof. unfold listar_veiculos. disciplina. Qed.

#[local] Hint Resolve disc_perguntar_sim_nao disc_menu disc_listar_produtos
  disc_listar_veiculos : disciplina.

Lemma disc_compara p veiculo_df :
  disciplinado evento_de_consulta true (fun _ _ => False) (compara p veiculo_df).
Proof. unfold compara, mostra_veiculo. disciplina. Qed.

#[local] Hint Resolve disc_compara : disciplina.

Lemma disc_comparar_veiculo_ate n :
  disciplinado evento_de_consulta true
    (fun e _ => e = EOFError \/ e = ValueError) (comparar_veiculo_ate n).
Proof.
  induction n as [| n IH].
  - intros w r w' H. simpl in H. inversion H; subst.
    split; [apply quadro_refl | discriminate].
  - cbn [comparar_veiculo_ate]. disciplina; exact IH.
Qed.

Lemma disc_comparar_veiculo :
  disciplinado evento_de_consulta true
    (fun e _ => e = EOFError \/ e = ValueError) comparar_veiculo.
Proof.
  intros w r w' H. unfold comparar_veiculo in H.
  exact (disc_comparar_veiculo_ate (voltas w) _ _ _ H).
Qed.

Lemma existsb_filter {A} (f : A -> bool) l :
  existsb f l = true -> filter f l <> [].
Proof.
  induction l as [| x l IH]; simpl; [discriminate |].
  destruct (f x); [discriminate | exact IH].
Qed.

(** [open] writes nothing and raises nothing but its two errors. *)
Lemma disc_abrir amb arquivo :
  disciplinado (fun _ => False) true (fun e _ => e = ValueError \/ e = OSError)
    (abrir amb arquivo).
Proof.
  unfold abrir. destruct (open_para_escrita amb arquivo) as [[|] |].
  - apply disc_levanta. intros _. now right.
  - apply disc_levanta. intros _. now left.
  - apply disc_ret.
Qed.

#[local] Hint Resolve disc_abrir : disciplina.

(** The export of a product: the console and the file; no TypeError, and
    no IndexError, the first element being taken of a list that has one. *)
Lemma disc_salvar_dados_produtos_json amb :
  disciplinado evento_de_exportacao true
    (fun e _ => e = EOFError \/ e = ValueError \/ e = OSError)
    (salvar_dados_produtos_json amb).
Proof.
  unfold salvar_dados_produtos_json.
  apply disc_bind; [disciplina |].
  intros [[| x linhas'] |]; try solve [disciplina].
  apply disc_bind; [disciplina |]. intros id.
  destruct (isdigit id); [| disciplina].
  destruct (int_de_str id) as [n |]; [| disciplina].
  destruct (existsb _ _) eqn:Ex; [| disciplina].
  apply existsb_filter in Ex.
  destruct (filter _ _) as [| escolhido resto]; [now elim Ex |].
  unfold escreve_produto. cbv zeta. disciplina.
Qed.

Lemma disc_salvar_veiculo_json amb :
  disciplinado evento_de_exportacao true excecao_de_exportacao
    (salvar_veiculo_json amb).
Proof.
  unfold salvar_veiculo_json, json_dump_veiculo. disciplina.
Qed.

#[local] Hint Resolve disc_comparar_veiculo disc_salvar_dados_produtos_json
  disc_salvar_veiculo_json : disciplina.

(** Option 6: whatever ValueError its body raises is caught. *)
Lemma disc_opcao_seis amb :
  disciplinado evento_de_exportacao true
    (fun e _ => e = EOFError \/ e = OSError \/ e = TypeError)
    (opcao_seis amb).
Proof. unfold opcao_seis, input_int. disciplina. Qed.

Lemma quadro_grava_produto amb d w r w' :
  grava_produto amb d w = (r, w') ->
  r = Retorna tt
  /\ entrada w' = entrada w
  /\ tabela_veiculos w' = tabela_veiculos w
  /\ match inserir_produto amb d (tabela_produtos w) with
     | inr linhas =>
         tabela_produtos w' = linhas /\ saida w' = MsgDadosGravados :: saida w
     | inl mensagem =>
         tabela_produtos w' = tabela_produtos w
         /\ saida w' = MsgErroAoInserir mensagem :: saida w
     end.
Proof.
  unfold grava_produto, emite.
  destruct (inserir_produto amb d (tabela_produtos w));
    intros H; inversion H; subst; simpl; auto.
Qed.

Lemma quadro_grava_transporte amb d w r w' :
  grava_transporte amb d w = (r, w') ->
  r = Retorna tt
  /\ entrada w' = entrada w
  /\ tabela_produtos w' = tabela_produtos w
  /\ match inserir_veiculo amb d (tabela_veiculos w) with
     | inr linhas =>
         tabela_veiculos w' = linhas /\ saida w' = MsgDadosGravados :: saida w
     | inl mensagem =>
         tabela_veiculos w' = tabela_veiculos w
         /\ saida w' = MsgErroAoInserir mensagem :: saida w
     end.
Proof.
  unfold grava_transporte, emite.
  destruct (inserir_veiculo amb d (tabela_veiculos w));
    intros H; inversion H; subst; simpl; auto.
Qed.

Lemma disc_grava_produto amb d :
  disciplinado evento_de_cadastro false (fun _ _ => False) (grava_produto amb d).
Proof.
  intros w r w' H. destruct (quadro_grava_produto _ _ _ _ _ H) as (-> & _ & _ & Hm).
  split; [| discriminate]. split; [| discriminate].
  destruct (inserir_produto amb d (tabela_produtos w)); destruct Hm as [_ ->];
    eexists [_]; (split; [reflexivity | repeat constructor]).
Qed.

Lemma disc_grava_transporte amb d :
  disciplinado evento_de_cadastro false (fun _ _ => False) (grava_transporte amb d).
Proof.
  intros w r w' H. destruct (quadro_grava_transporte _ _ _ _ _ H) as (-> & _ & _ & Hm).
  split; [| discriminate]. split; [| discriminate].
  destruct (inserir_veiculo amb d (tabela_veiculos w)); destruct Hm as [_ ->];
    eexists [_]; (split; [reflexivity | repeat constructor]).
Qed.

Lemma disc_coleta_produto amb :
  disciplinado evento_de_consulta true so_EOFError (coleta_produto amb).
Proof.
  unfold coleta_produto, valor_nulo, validar_positivo, input_int, input_float.
  disciplina.
Qed.

Lemma disc_coleta_transporte amb :
  disciplinado evento_de_consulta true so_EOFError (coleta_transporte amb).
Proof.
  unfold coleta_transporte, input_int, input_float. disciplina.
Qed.

#[local] Hint Resolve disc_opcao_seis disc_grava_produto disc_grava_transporte
  disc_coleta_produto disc_coleta_transporte : disciplina.

Lemma disc_dados_coletados_produtos amb :
  disciplinado evento_de_cadastro false so_EOFError (dados_coletados_produtos amb).
Proof. unfold dados_coletados_produtos. disciplina. Qed.

Lemma disc_dados_coletados_transporte amb :
  disciplinado evento_de_cadastro false so_EOFError
    (dados_coletados_transporte amb).
Proof. unfold dados_coletados_transporte. disciplina. Qed.

Lemma disc_sair_pelo_menu amb :
  disciplinado evento_do_menu false (fim_do_programa amb) (emite Cls ;; sair amb).
Proof.
  intros w r w' H. unfold sair, bind, emite, ret, levanta in H.
  split.
  - split; [| discriminate].
    destruct (conecta amb); inversion H; subst; simpl;
      [exists [FechaConexao; MsgSaindo; Cls; Cls]
      | exists [MsgSaindo; Cls; Cls]];
      (split; [reflexivity | repeat constructor; exact I]).
  - intros e -> codigo ->.
    destruct (conecta amb) eqn:Ec; inversion H; subst;
      (split; [reflexivity |]); unfold saiu_pelo_menu; rewrite Ec; simpl; eauto.
Qed.

#[local] Hint Resolve disc_dados_coletados_produtos
  disc_dados_coletados_transporte disc_sair_pelo_menu : disciplina.

Lemma disc_despacha amb escolha :
  disciplinado evento_do_menu false (fim_do_programa amb) (despacha amb escolha).
Proof. unfold despacha. disciplina. Qed.

#[local] Hint Resolve disc_despacha : disciplina.

Lemma disc_opcao_escolhida_ate amb n :
  forall escolha,
    disciplinado evento_do_menu false (fim_do_programa amb)
      (opcao_escolhida_ate amb n escolha).
Proof.
  induction n as [| n IH]; intros escolha.
  - intros w r w' H. simpl in H. inversion H; subst.
    split; [apply quadro_refl | discriminate].
  - cbn [opcao_escolhida_ate]. disciplina; apply IH.
Qed.

(* ------------------------------------------------------------------ *)
(** ** Loops, round by round *)

(** More rounds than lines left change nothing. *)
Lemma repetir_ate_rodadas {A} (corpo : prog (option A)) :
  le_uma_linha corpo ->
  forall n m w,
    (List.length (entrada w) < n)%nat ->
    (List.length (entrada w) < m)%nat ->
    repetir_ate n corpo w = repetir_ate m corpo w.
Proof.
  intros Hc n. induction n as [| n IH]; intros m w Hn Hm; [lia |].
  destruct m as [| m]; [lia |].
  simpl. unfold bind.
  destruct (corpo w) as [[[a |] | e |] w1] eqn:Ec; try reflexivity.
  destruct (Hc _ _ _ Ec) as (_ & _ & Hlt).
  assert (List.length (entrada w1) < List.length (entrada w))%nat
    by (apply Hlt; discriminate).
  apply IH; lia.
Qed.

Lemma enquanto_verdadeiro_volta {A} (corpo : prog (option A)) w w1 :
  le_uma_linha corpo ->
  corpo w = (Retorna None, w1) ->
  enquanto_verdadeiro corpo w = enquanto_verdadeiro corpo w1.
Proof.
  intros Hc Ec. unfold enquanto_verdadeiro. unfold voltas at 1.
  cbn [repetir_ate]. unfold bind at 1. rewrite Ec.
  destruct (Hc _ _ _ Ec) as (_ & _ & Hlt).
  assert (List.length (entrada w1) < List.length (entrada w))%nat
    by (apply Hlt; discriminate).
  apply repetir_ate_rodadas; [exact Hc | lia | unfold voltas; lia].
Qed.

Lemma enquanto_verdadeiro_sai {A} (corpo : prog (option A)) w a w1 :
  corpo w = (Retorna (Some a), w1) ->
  enquanto_verdadeiro corpo w = (Retorna a, w1).
Proof.
  intros Ec. unfold enquanto_verdadeiro, voltas.
  cbn [repetir_ate]. unfold bind at 1. rewrite Ec. reflexivity.
Qed.

Lemma enquanto_verdadeiro_levanta {A} (corpo : prog (option A)) w e w1 :
  corpo w = (Levanta e, w1) ->
  enquanto_verdadeiro corpo w = (Levanta e, w1).
Proof.
  intros Ec. unfold enquanto_verdadeiro, voltas.
  cbn [repetir_ate]. unfold bind at 1. rewrite Ec. reflexivity.
Qed.

Lemma le_coleta_produto amb : le_uma_linha (coleta_produto amb).
Proof. unfold coleta_produto. regularidade. Qed.

Lemma le_coleta_transporte amb : le_uma_linha (coleta_transporte amb).
Proof. unfold coleta_transporte. regularidade. Qed.

Lemma le_menu_corpo : le_uma_linha menu_corpo.
Proof. unfold menu_corpo. regularidade. Qed.

Lemma perguntar_sim_nao_aceita p linha depois s tp tv :
  palavra_literal (lower linha) ->
  perguntar_sim_nao p (Mundo (linha :: depois) s tp tv)
  = (Retorna (lower linha =? "sim")%string, Mundo depois (Input p :: s) tp tv).
Proof.
  intros H. unfold perguntar_sim_nao. apply enquanto_verdadeiro_sai.
  apply resposta_reconhecida_literal in H.
  unfold perguntar_sim_nao_corpo, bind, input. simpl. rewrite H. reflexivity.
Qed.

(* ------------------------------------------------------------------ *)
(** ** The menu *)

Lemma opcao_do_menu n :
  existsb (Z.eqb n) [1; 2; 3; 4; 5; 6; 7] = true <-> 1 <= n <= 7.
Proof.
  simpl. rewrite !orb_true_iff, !Z.eqb_eq. lia.
Qed.

Lemma menu_corpo_aceita linha n resto s tp tv :
  int_de_str linha = Some n ->
  1 <= n <= 7 ->
  menu_corpo (Mundo (linha :: resto) s tp tv)
  = (Retorna (Some n), Mundo resto (Input PEscolha :: MsgMenu :: s) tp tv).
Proof.
  intros Hn Hr. apply opcao_do_menu in Hr.
  unfold menu_corpo, exceto_ValueError, input_int.
  unfold bind, emite, input, ret. cbn [entrada saida tabela_produtos tabela_veiculos tl].
  rewrite Hn. cbv beta iota. rewrite Hr. reflexivity.
Qed.

Lemma menu_corpo_recusa linha resto s tp tv :
  escolha_recusada linha ->
  menu_corpo (Mundo (linha :: resto) s tp tv)
  = (Retorna None, Mundo resto (recusa_do_menu s linha) tp tv).
Proof.
  unfold escolha_recusada, recusa_do_menu. intros Hr.
  unfold menu_corpo, exceto_ValueError, input_int.
  unfold bind, emite, input, ret, levanta.
  cbn [entrada saida tabela_produtos tabela_veiculos tl].
  destruct (int_de_str linha) as [n |]; cbv beta iota.
  - destruct (existsb (Z.eqb n) [1; 2; 3; 4; 5; 6; 7]) eqn:Ex.
    + apply opcao_do_menu in Ex. now elim Hr.
    + reflexivity.
  - reflexivity.
Qed.

Lemma menu_corpo_retorna w n w' :
  menu_corpo w = (Retorna (Some n), w') -> 1 <= n <= 7.
Proof.
  unfold menu_corpo, exceto_ValueError, input_int.
  unfold bind, emite, input, ret, levanta.
  cbn [entrada saida tabela_produtos tabela_veiculos tl].
  destruct (entrada w) as [| linha resto]; [cbn; discriminate |].
  destruct (int_de_str linha) as [k |]; cbv beta iota; [| cbn; discriminate].
  destruct (existsb (Z.eqb k) [1; 2; 3; 4; 5; 6; 7]) eqn:Ex; [| cbn; discriminate].
  intros H. inversion H; subst. now apply opcao_do_menu.
Qed.

(** X1. Whatever is typed, a choice the menu returns is one of the seven
    options. *)
Theorem menu_devolve_opcao_valida (w : mundo) (n : Z) (w' : mundo)
  (H : menu w = (Retorna n, w')) :
  1 <= n <= 7.
Proof.
  unfold menu, enquanto_verdadeiro in H.
  apply repetir_ate_retorna in H. destruct H as (w0 & H).
  exact (menu_corpo_retorna _ _ _ H).
Qed.

Lemma menu_devolve_opcao_valida_exemplo : 1 <= 5 <= 7.
Proof.
  apply (menu_devolve_opcao_valida
           (Mundo ["9"; "cinco"; "5"; "1"] [] [] [])
           5
           (Mundo ["1"]
              [ Input PEscolha; MsgMenu;
                MsgEscolhaInvalida; Cls; Input PEscolha; MsgMenu;
                MsgEscolhaInvalida; Cls; Cls; Input PEscolha; MsgMenu ] [] [])).
  reflexivity.
Defined.

(** X2. The menu passes over every line that is not a number from 1 to 7,
    answering each with the invalid-choice message on a cleared screen,
    and returns the first line that is one, leaving the lines after it
    unread. *)
Theorem menu_primeira_escolha_valida
  (antes : list string) (linha : string) (n : Z) (depois : list string)
  (s : list evento) (tp : list Produto.linha) (tv : list Veiculo.linha)
  (Hantes : Forall escolha_recusada antes)
  (Hlinha : int_de_str linha = Some n)
  (Hn : 1 <= n <= 7) :
  menu (Mundo (antes ++ linha :: depois) s tp tv)
  = (Retorna n,
     Mundo depois
       (Input PEscolha :: MsgMenu :: fold_left recusa_do_menu antes s) tp tv).
Proof.
  revert s. induction Hantes as [| l antes Hl _ IH]; intros s.
  - apply enquanto_verdadeiro_sai. now apply menu_corpo_aceita.
  - unfold menu. cbn [app fold_left].
    rewrite (enquanto_verdadeiro_volta menu_corpo _ _ le_menu_corpo
               (menu_corpo_recusa l (antes ++ linha :: depois) s tp tv Hl)).
    apply IH.
Qed.

Lemma menu_primeira_escolha_valida_exemplo :
  menu (Mundo (["9"; "cinco"] ++ "5" :: ["1"]) [] [] [])
  = (Retorna 5,
     Mundo ["1"]
       (Input PEscolha :: MsgMenu
        :: fold_left recusa_do_menu ["9"; "cinco"] []) [] []).
Proof.
  apply (menu_primeira_escolha_valida ["9"; "cinco"] "5" 5 ["1"] [] [] []).
  - constructor; [| constructor; [exact I | constructor]].
    unfold escolha_recusada. change (int_de_str "9") with (Some 9).
    cbv beta iota. lia.
  - reflexivity.
  - lia.
Defined.

(* ------------------------------------------------------------------ *)
(** ** The registrations, as their callers see them *)

(** X3. Every record the product registration returns has a name, an
    origin and a destination that are not empty, a quantity that is
    strictly positive, and two flags that are 'SIM' or 'NAO'; the two
    temperatures are whatever [float] read, in any order. *)
Theorem produto_cadastrado_e_valido
  (amb : ambiente) (w : mundo) (d : dados_produtos) (w' : mundo)
  (H : dados_coletados_produtos amb w = (Retorna d, w')) :
  dp_produto d <> "" /\ dp_origem d <> "" /\ dp_destino d <> ""
  /\ 0 < dp_quantidade d
  /\ flag_valida (dp_ventilacao d) /\ flag_valida (dp_protecao_solar d).
Proof.
  exact (dados_coletados_produtos_validos amb w d w' H).
Qed.

Lemma produto_cadastrado_e_valido_exemplo :
  let d := DadosProdutos "soja" 100 "Sorriso" "Santos"
             (num_de_Z 8) (num_de_Z 2) "SIM" "NAO" in
  dp_produto d <> "" /\ dp_origem d <> "" /\ dp_destino d <> ""
  /\ 0 < dp_quantidade d
  /\ flag_valida (dp_ventilacao d) /\ flag_valida (dp_protecao_solar d).
Proof.
  apply (produto_cadastrado_e_valido amb_exemplo
           (Mundo [""; "soja"; "Sorriso"; "Santos"; "-3";
                   "soja"; "Sorriso"; "Santos"; "100"; "8"; "2"; "Sim"; "x"; "nao"]
              [] [] [])
           (DadosProdutos "soja" 100 "Sorriso" "Santos"
              (num_de_Z 8) (num_de_Z 2) "SIM" "NAO")
           (snd (dados_coletados_produtos amb_exemplo
                   (Mundo [""; "soja"; "Sorriso"; "Santos"; "-3";
                           "soja"; "Sorriso"; "Santos"; "100"; "8"; "2";
                           "Sim"; "x"; "nao"]
                      [] [] [])))).
  vm_compute. reflexivity.
Defined.

Lemma coleta_transporte_valida amb w d w' :
  coleta_transporte amb w = (Retorna (Some d), w') ->
  flag_valida (dt_ventilacao d) /\ flag_valida (dt_protecao_solar d).
Proof.
  unfold coleta_transporte, exceto_ValueError. intros E.
  match type of E with
  | match ?m w with _ => _ end = _ =>
      destruct (m w) as [[r | e |] w2] eqn:Em
  end.
  2: { destruct e; try discriminate E; cbv in E; discriminate E. }
  2: { discriminate E. }
  inversion E; subst r w2. clear E.
  apply bind_retorna in Em. destruct Em as (capacidade & w3 & _ & Em).
  apply bind_retorna in Em. destruct Em as (temperatura & w4 & _ & Em).
  apply bind_retorna in Em. destruct Em as (ventilacao & w5 & _ & Em).
  apply bind_retorna in Em. destruct Em as (protecao & w6 & _ & Em).
  unfold ret in Em. inversion Em; subst. simpl.
  split; apply sim_ou_nao_valida.
Qed.

(** X4. Every record the vehicle registration returns has two flags that
    are 'SIM' or 'NAO'. *)
Theorem veiculo_cadastrado_tem_flags_validas
  (amb : ambiente) (w : mundo) (d : dados_transporte) (w' : mundo)
  (H : dados_coletados_transporte amb w = (Retorna d, w')) :
  flag_valida (dt_ventilacao d) /\ flag_valida (dt_protecao_solar d).
Proof.
  unfold dados_coletados_transporte in H.
  apply bind_retorna in H. destruct H as (d0 & w1 & E & E').
  apply bind_retorna in E'. destruct E' as ([] & w2 & _ & E').
  unfold ret in E'. inversion E'; subst d0 w2.
  apply repetir_ate_retorna in E. destruct E as (w0 & E).
  exact (coleta_transporte_valida _ _ _ _ E).
Qed.

Lemma veiculo_cadastrado_tem_flags_validas_exemplo :
  flag_valida (dt_ventilacao (DadosTransporte (-5) (num_de_Z 4) "NAO" "SIM"))
  /\ flag_valida (dt_protecao_solar (DadosTransporte (-5) (num_de_Z 4) "NAO" "SIM")).
Proof.
  apply (veiculo_cadastrado_tem_flags_validas amb_exemplo
           (Mundo ["dez"; "-5"; "4"; "NAO"; "talvez"; "SIM"] [] [] [])
           (DadosTransporte (-5) (num_de_Z 4) "NAO" "SIM")
           (snd (dados_coletados_transporte amb_exemplo
                   (Mundo ["dez"; "-5"; "4"; "NAO"; "talvez"; "SIM"] [] [] [])))).
  vm_compute. reflexivity.
Defined.

Lemma disc_tabelas {A} P E (m : prog A) w r w' :
  disciplinado P true E m ->
  m w = (r, w') ->
  tabela_produtos w' = tabela_produtos w /\ tabela_veiculos w' = tabela_veiculos w.
Proof.
  intros Hm H. destruct (Hm _ _ _ H) as [[_ T] _]. now apply T.
Qed.

(** X5. A registration that returns has handed its record to the INSERT
    of its own table, once, and touched nothing else: the other table is
    what it was, and its own table is what the INSERT made of it, with the
    confirmation printed last; when the INSERT raised, the table is what
    it was, the message of the error is printed last, and the record is
    returned all the same. *)
Theorem cadastros_gravam_pelo_insert (amb : ambiente) (w w' : mundo) :
  (forall d,
     dados_coletados_produtos amb w = (Retorna d, w') ->
     tabela_veiculos w' = tabela_veiculos w
     /\ match inserir_produto amb d (tabela_produtos w) with
        | inr linhas =>
            tabela_produtos w' = linhas
            /\ hd_error (saida w') = Some MsgDadosGravados
        | inl mensagem =>
            tabela_produtos w' = tabela_produtos w
            /\ hd_error (saida w') = Some (MsgErroAoInserir mensagem)
        end)
  /\ (forall d,
        dados_coletados_transporte amb w = (Retorna d, w') ->
        tabela_produtos w' = tabela_produtos w
        /\ match inserir_veiculo amb d (tabela_veiculos w) with
           | inr linhas =>
               tabela_veiculos w' = linhas
               /\ hd_error (saida w') = Some MsgDadosGravados
           | inl mensagem =>
               tabela_veiculos w' = tabela_veiculos w
               /\ hd_error (saida w') = Some (MsgErroAoInserir mensagem)
           end).
Proof.
  split; intros d H.
  - unfold dados_coletados_produtos in H.
    apply bind_retorna in H. destruct H as (d0 & w1 & E & E').
    apply bind_retorna in E'. destruct E' as ([] & w2 & Eg & E').
    unfold ret in E'. inversion E'; subst d0 w2.
    destruct (disc_tabelas _ _ _ _ _ _
                (disc_enquanto_verdadeiro _ _ _ _ (disc_coleta_produto amb)) E)
      as [Tp Tv].
    destruct (quadro_grava_produto _ _ _ _ _ Eg) as (_ & _ & Hv & Hm).
    rewrite Tp in Hm. split; [congruence |].
    destruct (inserir_produto amb d (tabela_produtos w));
      destruct Hm as [Ht Hs]; rewrite Hs; split; try reflexivity; congruence.
  - unfold dados_coletados_transporte in H.
    apply bind_retorna in H. destruct H as (d0 & w1 & E & E').
    apply bind_retorna in E'. destruct E' as ([] & w2 & Eg & E').
    unfold ret in E'. inversion E'; subst d0 w2.
    destruct (disc_tabelas _ _ _ _ _ _
                (disc_enquanto_verdadeiro _ _ _ _ (disc_coleta_transporte amb)) E)
      as [Tp Tv].
    destruct (quadro_grava_transporte _ _ _ _ _ Eg) as (_ & _ & Hv & Hm).
    rewrite Tv in Hm. split; [congruence |].
    destruct (inserir_veiculo amb d (tabela_veiculos w));
      destruct Hm as [Ht Hs]; rewrite Hs; split; try reflexivity; congruence.
Qed.

Lemma cadastros_gravam_pelo_insert_exemplo :
  let d := DadosProdutos "soja" 100 "Sorriso" "Santos"
             (num_de_Z 2) (num_de_Z 8) "SIM" "NAO" in
  let w := Mundo ["soja"; "Sorriso"; "Santos"; "100"; "2"; "8"; "sim"; "nao"]
             [] [leite] [caminhao_frio] in
  let w' := snd (dados_coletados_produtos amb_exemplo w) in
  let dv := DadosTransporte 150 (num_de_Z 5) "SIM" "NAO" in
  let v := Mundo ["150"; "5"; "sim"; "nao"] [] [leite] [caminhao_frio] in
  let v' := snd (dados_coletados_transporte amb_exemplo v) in
  (tabela_veiculos w' = tabela_veiculos w
   /\ match inserir_produto amb_exemplo d (tabela_produtos w) with
      | inr linhas =>
          tabela_produtos w' = linhas
          /\ hd_error (saida w') = Some MsgDadosGravados
      | inl mensagem =>
          tabela_produtos w' = tabela_produtos w
          /\ hd_error (saida w') = Some (MsgErroAoInserir mensagem)
      end)
  /\ (tabela_produtos v' = tabela_produtos v
      /\ match inserir_veiculo amb_exemplo dv (tabela_veiculos v) with
         | inr linhas =>
             tabela_veiculos v' = linhas
             /\ hd_error (saida v') = Some MsgDadosGravados
         | inl mensagem =>
             tabela_veiculos v' = tabela_veiculos v
             /\ hd_error (saida v') = Some (MsgErroAoInserir mensagem)
         end).
Proof.
  intros d w w' dv v v'. split.
  - apply (proj1 (cadastros_gravam_pelo_insert amb_exemplo w w') d).
    vm_compute. reflexivity.
  - apply (proj2 (cadastros_gravam_pelo_insert amb_exemplo v v') dv).
    vm_compute. reflexivity.
Defined.

Lemma coleta_produto_nome_vazio amb resto s tp tv :
  coleta_produto amb (Mundo ("" :: resto) s tp tv)
  = (Retorna None,
     Mundo resto (MsgCampoVazio "produto" :: Input PNomeProduto :: s) tp tv).
Proof. reflexivity. Qed.

Lemma coleta_produto_quantidade_invalida amb nome origem destino q resto s tp tv :
  nome <> "" -> origem <> "" -> destino <> "" ->
  (int_de_str q = None \/ exists z, int_de_str q = Some z /\ z <= 0) ->
  coleta_produto amb (Mundo (nome :: origem :: destino :: q :: resto) s tp tv)
  = (Retorna None,
     Mundo resto
       (MsgDigiteNumeroValido :: Input PQuantidade :: Input PDestino
        :: Input POrigem :: Input PNomeProduto :: s) tp tv).
Proof.
  intros Hn Ho Hd Hq.
  destruct nome as [| c1 nome]; [now elim Hn |].
  destruct origem as [| c2 origem]; [now elim Ho |].
  destruct destino as [| c3 destino]; [now elim Hd |].
  unfold coleta_produto, exceto_ValueError.
  unfold bind at 1. unfold input at 1. cbn [entrada saida tabela_produtos tabela_veiculos tl].
  unfold bind at 1. unfold valor_nulo at 1, ret at 1.
  unfold bind at 1. unfold input at 1. cbn [entrada saida tabela_produtos tabela_veiculos tl].
  unfold bind at 1. unfold valor_nulo at 1, ret at 1.
  unfold bind at 1. unfold input at 1. cbn [entrada saida tabela_produtos tabela_veiculos tl].
  unfold bind at 1. unfold valor_nulo at 1, ret at 1.
  unfold bind at 1. unfold input_int at 1. unfold bind at 1. unfold input at 1.
  cbn [entrada saida tabela_produtos tabela_veiculos tl].
  destruct Hq as [-> | (z & -> & Hz)].
  - reflexivity.
  - unfold ret at 1. unfold bind at 1. unfold validar_positivo, exceto_ValueError.
    apply Z.leb_le in Hz. rewrite Hz. reflexivity.
Qed.

(** X6. The product form is all or nothing: after an empty name the
    registration complains and asks the name again, and after a quantity
    that is not a number or not positive it complains and starts again at
    the name, the three texts already typed being dropped. *)
Theorem cadastro_de_produto_recomeca
  (amb : ambiente) (resto : list string) (s : list evento)
  (tp : list Produto.linha) (tv : list Veiculo.linha) :
  dados_coletados_produtos amb (Mundo ("" :: resto) s tp tv)
  = dados_coletados_produtos amb
      (Mundo resto (MsgCampoVazio "produto" :: Input PNomeProduto :: s) tp tv)
  /\ forall nome origem destino q,
       nome <> "" -> origem <> "" -> destino <> "" ->
       (int_de_str q = None \/ exists z, int_de_str q = Some z /\ z <= 0) ->
       dados_coletados_produtos amb
         (Mundo (nome :: origem :: destino :: q :: resto) s tp tv)
       = dados_coletados_produtos amb
           (Mundo resto
              (MsgDigiteNumeroValido :: Input PQuantidade :: Input PDestino
               :: Input POrigem :: Input PNomeProduto :: s) tp tv).
Proof.
  split.
  - unfold dados_coletados_produtos. unfold bind at 1 3.
    now rewrite (enquanto_verdadeiro_volta _ _ _ (le_coleta_produto amb)
                   (coleta_produto_nome_vazio amb resto s tp tv)).
  - intros nome origem destino q Hn Ho Hd Hq.
    unfold dados_coletados_produtos. unfold bind at 1 3.
    now rewrite (enquanto_verdadeiro_volta _ _ _ (le_coleta_produto amb)
                   (coleta_produto_quantidade_invalida amb nome origem destino q
                      resto s tp tv Hn Ho Hd Hq)).
Qed.

Lemma cadastro_de_produto_recomeca_exemplo :
  dados_coletados_produtos amb_exemplo
    (Mundo ["soja"; "Sorriso"; "Santos"; "0"; "milho"] [] [] [])
  = dados_coletados_produtos amb_exemplo
      (Mundo ["milho"]
         [ MsgDigiteNumeroValido; Input PQuantidade; Input PDestino;
           Input POrigem; Input PNomeProduto ] [] []).
Proof.
  apply (proj2 (cadastro_de_produto_recomeca amb_exemplo ["milho"] [] [] [])
           "soja" "Sorriso" "Santos" "0").
  - discriminate.
  - discriminate.
  - discriminate.
  - right. exists 0. split; [reflexivity | lia].
Defined.

Lemma coleta_produto_aceita amb nome origem destino q z lmin lmax a b r1 r2 resto s tp tv :
  nome <> "" -> origem <> "" -> destino <> "" ->
  int_de_str q = Some z -> 0 < z ->
  float_de_str amb lmin = Some a -> float_de_str amb lmax = Some b ->
  palavra_literal (lower r1) -> palavra_literal (lower r2) ->
  coleta_produto amb
    (Mundo (nome :: origem :: destino :: q :: lmin :: lmax :: r1 :: r2 :: resto)
       s tp tv)
  = (Retorna (Some (DadosProdutos nome z origem destino a b
                      (sim_ou_nao (lower r1 =? "sim")%string)
                      (sim_ou_nao (lower r2 =? "sim")%string))),
     Mundo resto
       (Input PRequerProtecaoSolar :: Input PRequerVentilacao
        :: Input PTemperaturaMaxima :: Input PTemperaturaMinima
        :: Input PQuantidade :: Input PDestino :: Input POrigem
        :: Input PNomeProduto :: s) tp tv).
Proof.
  intros Hn Ho Hd Hq Hz Ha Hb H1 H2.
  destruct nome as [| c1 nome]; [now elim Hn |].
  destruct origem as [| c2 origem]; [now elim Ho |].
  destruct destino as [| c3 destino]; [now elim Hd |].
  unfold coleta_produto, exceto_ValueError.
  unfold bind at 1. unfold input at 1. cbn [entrada saida tabela_produtos tabela_veiculos tl].
  unfold bind at 1. unfold valor_nulo at 1, ret at 1.
  unfold bind at 1. unfold input at 1. cbn [entrada saida tabela_produtos tabela_veiculos tl].
  unfold bind at 1. unfold valor_nulo at 1, ret at 1.
  unfold bind at 1. unfold input at 1. cbn [entrada saida tabela_produtos tabela_veiculos tl].
  unfold bind at 1. unfold valor_nulo at 1, ret at 1.
  unfold bind at 1. unfold input_int at 1. unfold bind at 1. unfold input at 1.
  cbn [entrada saida tabela_produtos tabela_veiculos tl].
  rewrite Hq. unfold ret at 1.
  unfold bind at 1. unfold validar_positivo, exceto_ValueError.
  apply Z.leb_gt in Hz. rewrite Hz. unfold ret at 1.
  unfold bind at 1. unfold input_float at 1. unfold bind at 1. unfold input at 1.
  cbn [entrada saida tabela_produtos tabela_veiculos tl].
  rewrite Ha. unfold ret at 1.
  unfold bind at 1. unfold input_float at 1. unfold bind at 1. unfold input at 1.
  cbn [entrada saida tabela_produtos tabela_veiculos tl].
  rewrite Hb. unfold ret at 1.
  unfold bind at 1. rewrite (perguntar_sim_nao_aceita _ _ _ _ _ _ H1).
  unfold bind at 1. rewrite (perguntar_sim_nao_aceita _ _ _ _ _ _ H2).
  reflexivity.
Qed.

(** X7. A form filled in well is registered at once: with three texts that
    are not empty, a quantity that [int] reads as positive, two
    temperatures that [float] reads and two accepted answers, the
    registration reads exactly these eight lines, returns the record made
    of them (a flag is 'SIM' exactly when the answer, in lower case, is
    the affirmative word) and hands it to the INSERT. *)
Theorem cadastro_de_produto_aceito
  (amb : ambiente) (nome origem destino q : string) (z : Z)
  (lmin lmax : string) (a b : num) (r1 r2 : string)
  (resto : list string) (s : list evento)
  (tp : list Produto.linha) (tv : list Veiculo.linha)
  (Hn : nome <> "") (Ho : origem <> "") (Hd : destino <> "")
  (Hq : int_de_str q = Some z) (Hz : 0 < z)
  (Ha : float_de_str amb lmin = Some a) (Hb : float_de_str amb lmax = Some b)
  (H1 : palavra_literal (lower r1)) (H2 : palavra_literal (lower r2)) :
  let d := DadosProdutos nome z origem destino a b
             (sim_ou_nao (lower r1 =? "sim")%string)
             (sim_ou_nao (lower r2 =? "sim")%string) in
  let lido := Input PRequerProtecaoSolar :: Input PRequerVentilacao
              :: Input PTemperaturaMaxima :: Input PTemperaturaMinima
              :: Input PQuantidade :: Input PDestino :: Input POrigem
              :: Input PNomeProduto :: s in
  dados_coletados_produtos amb
    (Mundo (nome :: origem :: destino :: q :: lmin :: lmax :: r1 :: r2 :: resto)
       s tp tv)
  = (Retorna d,
     match inserir_produto amb d tp with
     | inr linhas => Mundo resto (MsgDadosGravados :: lido) linhas tv
     | inl mensagem => Mundo resto (MsgErroAoInserir mensagem :: lido) tp tv
     end).
Proof.
  intros d lido. subst d lido.
  unfold dados_coletados_produtos. unfold bind at 1.
  rewrite (enquanto_verdadeiro_sai _ _ _ _
             (coleta_produto_aceita amb nome origem destino q z lmin lmax a b
                r1 r2 resto s tp tv Hn Ho Hd Hq Hz Ha Hb H1 H2)).
  unfold bind, grava_produto, emite, ret.
  cbn [entrada saida tabela_produtos tabela_veiculos].
  destruct (inserir_produto amb _ tp); reflexivity.
Qed.

Lemma cadastro_de_produto_aceito_exemplo :
  dados_coletados_produtos amb_exemplo
    (Mundo ["soja"; "Sorriso"; "Santos"; "100"; "2"; "8"; "SIM"; "nao"; "7"]
       [] [] [])
  = (Retorna (DadosProdutos "soja" 100 "Sorriso" "Santos"
                (num_de_Z 2) (num_de_Z 8) "SIM" "NAO"),
     Mundo ["7"]
       [ MsgDadosGravados;
         Input PRequerProtecaoSolar; Input PRequerVentilacao;
         Input PTemperaturaMaxima; Input PTemperaturaMinima;
         Input PQuantidade; Input PDestino; Input POrigem; Input PNomeProduto ]
       [ Produto.Linha 1 "soja" 100 "Sorriso" "Santos"
           (num_de_Z 2) (num_de_Z 8) "SIM" "NAO" ]
       []).
Proof.
  apply (cadastro_de_produto_aceito amb_exemplo
           "soja" "Sorriso" "Santos" "100" 100 "2" "8"
           (num_de_Z 2) (num_de_Z 8) "SIM" "nao" ["7"] [] [] []).
  - discriminate.
  - discriminate.
  - discriminate.
  - reflexivity.
  - lia.
  - reflexivity.
  - reflexivity.
  - left; reflexivity.
  - right; right; reflexivity.
Defined.

(* ------------------------------------------------------------------ *)
(** ** The compatibility check, as its caller sees it *)

Lemma produto_de_id_nao_vazia n linhas p :
  produto_de_id n linhas = Some p ->
  exists x linhas', linhas = x :: linhas'.
Proof.
  destruct linhas as [| x linhas']; [discriminate | eauto].
Qed.

(** X8. With the identifier of a registered product typed, the check reads
    that one line and answers from the loop over the vehicles, in the
    order of the table: when the loop finds a vehicle it prints that
    vehicle's identifier and the four comparisons and returns True; when it
    finds none it prints the message of the failed search with the name of
    the product, lists the vehicles and returns False. *)
Theorem comparar_veiculo_produto_encontrado
  (id : string) (n : Z) (p : Produto.linha)
  (resto : list string) (s : list evento)
  (linhas : list Produto.linha) (tv : list Veiculo.linha)
  (Hd : isdigit id = true)
  (Hn : int_de_str id = Some n)
  (Hp : produto_de_id n linhas = Some p) :
  let lido := Input PIdProduto :: MsgListados :: TabelaProdutos linhas
              :: MsgListarProdutos :: s in
  comparar_veiculo (Mundo (id :: resto) s linhas tv)
  = match comparar_veiculo_laco p tv with
    | Some v =>
        (Retorna (Some true),
         Mundo resto
           (MsgProtecaoSolar (Veiculo.protecao_solar v)
            :: MsgVentilacao (Veiculo.ventilacao v)
            :: MsgTemperatura (Veiculo.temperatura v)
                 (Produto.temperatura_minima p) (Produto.temperatura_maxima p)
            :: MsgCapacidade (Veiculo.capacidade v) (Produto.quantidade p)
            :: MsgVeiculoDisponivel (Veiculo.id_veiculo v)
            :: lido)
           linhas tv)
    | None =>
        (Retorna (Some false),
         Mundo resto
           (match tv with
            | [] => [MsgNaoHaVeiculosCadastrados]
            | _ :: _ => [TabelaVeiculos tv]
            end
            ++ MsgListarVeiculos :: LinhaEmBranco
            :: MsgNenhumVeiculo (Produto.produto p) :: lido)
           linhas tv)
    end.
Proof.
  intros lido. subst lido.
  destruct (produto_de_id_nao_vazia _ _ _ Hp) as (x & linhas' & ->).
  rewrite comparar_veiculo_passos. cbv zeta.
  rewrite Hd, Hn, Hp. unfold compara.
  destruct (comparar_veiculo_laco p tv) as [v |]; [reflexivity |].
  destruct tv; reflexivity.
Qed.

Lemma comparar_veiculo_produto_encontrado_exemplo :
  comparar_veiculo
    (Mundo ["01"; "7"] [] [soja; leite] [caminhao_pequeno; caminhao_grande])
  = (Retorna (Some true),
     Mundo ["7"]
       [ MsgProtecaoSolar "NAO"; MsgVentilacao "SIM";
         MsgTemperatura (num_de_Z 5) (num_de_Z 2) (num_de_Z 8);
         MsgCapacidade 150 100; MsgVeiculoDisponivel 2;
         Input PIdProduto; MsgListados; TabelaProdutos [soja; leite];
         MsgListarProdutos ]
       [soja; leite] [caminhao_pequeno; caminhao_grande]).
Proof.
  apply (comparar_veiculo_produto_encontrado "01" 1 soja ["7"] []
           [soja; leite] [caminhao_pequeno; caminhao_grande]).
  - reflexivity.
  - reflexivity.
  - reflexivity.
Defined.

(** X9. A line that is not a digit string, or a digit string whose number
    identifies no product of the table, is answered on a cleared screen by
    the not-found message carrying the line as typed, and the check starts
    again on the lines that follow, listing the products and asking once
    more; whatever this second round gives is what the check gives. *)
Theorem comparar_veiculo_pergunta_de_novo
  (x : Produto.linha) (linhas' : list Produto.linha) (id : string)
  (resto : list string) (s : list evento) (tv : list Veiculo.linha)
  (H : isdigit id = false
       \/ exists numero, int_de_str id = Some numero
                         /\ produto_de_id numero (x :: linhas') = None) :
  comparar_veiculo (Mundo (id :: resto) s (x :: linhas') tv)
  = comparar_veiculo
      (Mundo resto
         (MsgProdutoNaoEncontrado id :: Cls :: Input PIdProduto :: MsgListados
          :: TabelaProdutos (x :: linhas') :: MsgListarProdutos :: s)
         (x :: linhas') tv).
Proof.
  exact (comparar_veiculo_nao_encontrado x linhas' id resto s tv H).
Qed.

Lemma comparar_veiculo_pergunta_de_novo_exemplo :
  comparar_veiculo (Mundo ["soja"; "1"] [] [soja] [caminhao_grande])
  = comparar_veiculo
      (Mundo ["1"]
         [ MsgProdutoNaoEncontrado "soja"; Cls; Input PIdProduto; MsgListados;
           TabelaProdutos [soja]; MsgListarProdutos ]
         [soja] [caminhao_grande])
  /\ comparar_veiculo (Mundo ["9"; "1"] [] [soja] [caminhao_grande])
     = comparar_veiculo
         (Mundo ["1"]
            [ MsgProdutoNaoEncontrado "9"; Cls; Input PIdProduto; MsgListados;
              TabelaProdutos [soja]; MsgListarProdutos ]
            [soja] [caminhao_grande]).
Proof.
  split.
  - apply (comparar_veiculo_pergunta_de_novo soja [] "soja" ["1"] []
             [caminhao_grande]).
    left; reflexivity.
  - apply (comparar_veiculo_pergunta_de_novo soja [] "9" ["1"] []
             [caminhao_grande]).
    right. exists 9. split; reflexivity.
Defined.

(** X10. With no product registered the check asks nothing: whatever the
    vehicles and the lines waiting, it prints that there are no products
    (once in the listing and once more itself), reads no line and returns
    None. *)
Theorem comparar_veiculo_sem_produtos
  (linhas_a_digitar : list string) (s : list evento) (tv : list Veiculo.linha) :
  comparar_veiculo (Mundo linhas_a_digitar s [] tv)
  = (Retorna None,
     Mundo linhas_a_digitar
       (MsgNaoHaProdutos :: MsgNaoHaProdutos :: MsgListarProdutos :: s) [] tv).
Proof.
  reflexivity.
Qed.

Lemma disc_saida {A} (P : evento -> Prop) fixas E (m : prog A) w :
  disciplinado P fixas E m ->
  exists novos, saida (snd (m w)) = novos ++ saida w /\ Forall P novos.
Proof.
  intros Hm. destruct (m w) as [r w'] eqn:H.
  destruct (Hm _ _ _ H) as [[Q _] _]. exact Q.
Qed.

(** X11. In no run does the check print that there are no vehicles to
    compare: the message sits behind a test that the result of the query
    never passes.  Nor does it write a file, to the end or in part, or
    close the connection. *)
Theorem comparar_veiculo_nunca_diz_sem_veiculos (w : mundo) :
  exists novos,
    saida (snd (comparar_veiculo w)) = novos ++ saida w
    /\ ~ In MsgNaoHaVeiculosParaComparacao novos
    /\ (forall nome conteudo, ~ In (EscreveArquivo nome conteudo) novos)
    /\ ~ In FechaConexao novos
    /\ (forall nome escrito chave,
          ~ In (ArquivoIncompleto nome escrito chave) novos).
Proof.
  destruct (disc_saida _ _ _ _ w disc_comparar_veiculo) as (novos & E & F).
  exists novos. split; [exact E |].
  rewrite Forall_forall in F.
  repeat split; [| intros nome conteudo | | intros nome escrito chave];
    intros H; exact (F _ H).
Qed.

(* ------------------------------------------------------------------ *)
(** ** The exports and option 6 *)

Lemma veiculo_de_id_nao_vazia n linhas v :
  veiculo_de_id n linhas = Some v -> exists x linhas', linhas = x :: linhas'.
Proof.
  destruct linhas as [| x linhas']; [discriminate | eauto].
Qed.

Lemma salvar_veiculo_json_passos amb x linhas' id resto s tp :
  let linhas := x :: linhas' in
  let w := Mundo resto
             (Input PIdVeiculoJson :: TabelaVeiculos linhas
              :: MsgListarVeiculos :: s) tp linhas in
  salvar_veiculo_json amb (Mundo (id :: resto) s tp linhas)
  = if isdigit id then
      match int_de_str id with
      | None => (Levanta ValueError, w)
      | Some n =>
          match veiculo_de_id n linhas with
          | Some veiculo_escolhido =>
              let arquivo := ("veiculo_" ++ str_de_int n ++ ".json")%string in
              (abrir amb arquivo ;;
               json_dump_veiculo arquivo n veiculo_escolhido linhas ;;
               emite (MsgSalvo (str_de_int n) arquivo)) w
          | None => emite MsgIdVeiculoInvalido w
          end
      end
    else emite MsgIdVeiculoInvalido w.
Proof.
  intros linhas w. subst linhas w.
  cbv -[veiculo_de_id isdigit int_de_str str_de_int String.append Z.eqb
        abrir json_dump_veiculo].
  destruct (isdigit id); [| reflexivity].
  destruct (int_de_str id) as [n |]; [| reflexivity].
  destruct (veiculo_de_id n (x :: linhas')); reflexivity.
Qed.

Lemma coluna_de_int64 (linhas : list Veiculo.linha) :
  (forall v, In v linhas -> - 2 ^ 63 <= Veiculo.capacidade v <= 2 ^ 63 - 1) ->
  coluna_de_inteiros_numpy (map Veiculo.capacidade linhas) = true.
Proof.
  intros H. unfold coluna_de_inteiros_numpy.
  apply orb_true_iff. left. apply forallb_forall.
  intros z Hz. apply in_map_iff in Hz. destruct Hz as (v & <- & Hv).
  specialize (H v Hv). unfold cabe_em_int64.
  apply andb_true_iff. split; apply Z.leb_le; lia.
Qed.

(** One run of option 6 up to the export of a vehicle. *)
Lemma opcao_seis_veiculo amb id resto s tp tv :
  opcao_seis amb (Mundo ("2" :: id :: resto) s tp tv)
  = exceto_ValueError (salvar_veiculo_json amb)
      (emite Cls ;; emite MsgEscolhaInvalida)
      (Mundo (id :: resto) (Input PEscolhaSeis :: Cls :: s) tp tv).
Proof.
  unfold opcao_seis, exceto_ValueError.
  unfold bind at 1. unfold emite at 1. unfold bind at 1.
  unfold input_int at 1. unfold bind at 1. unfold input at 1.
  cbn [entrada saida tabela_produtos tabela_veiculos tl].
  change (int_de_str "2") with (Some 2). cbv beta iota. unfold ret at 1.
  change (2 =? 1) with false. change (2 =? 2) with true. cbv beta iota.
  unfold bind at 1. unfold ret at 1.
  reflexivity.
Qed.

(** X12. The export of a vehicle does not reach its end.  For a valid
    identifier, in a table whose capacities are 64-bit integers, and the
    file named after the number typed opening for writing, the export
    leaves that file with the identifier alone and the key of the
    capacity, prints no message, and ends by the TypeError of [json.dump];
    option 6 does not catch it, so it ends the same way. *)
Theorem exportacao_de_veiculo_interrompida
  (amb : ambiente)
  (linhas : list Veiculo.linha) (r : Veiculo.linha) (id : string) (n : Z)
  (resto : list string) (s : list evento) (tp : list Produto.linha)
  (Hdigitos : isdigit id = true)
  (Hid : int_de_str id = Some n)
  (Hr : veiculo_de_id n linhas = Some r)
  (Hint64 : forall v, In v linhas ->
                      - 2 ^ 63 <= Veiculo.capacidade v <= 2 ^ 63 - 1)
  (Habre : open_para_escrita amb
             ("veiculo_" ++ str_de_int n ++ ".json")%string = None) :
  let incompleto :=
    ArquivoIncompleto ("veiculo_" ++ str_de_int n ++ ".json")%string
      [("id_veiculo", JInt n)] "capacidade" in
  salvar_veiculo_json amb (Mundo (id :: resto) s tp linhas)
  = (Levanta TypeError,
     Mundo resto
       (incompleto :: Input PIdVeiculoJson :: TabelaVeiculos linhas
        :: MsgListarVeiculos :: s)
       tp linhas)
  /\ opcao_seis amb (Mundo ("2" :: id :: resto) s tp linhas)
     = (Levanta TypeError,
        Mundo resto
          (incompleto :: Input PIdVeiculoJson :: TabelaVeiculos linhas
           :: MsgListarVeiculos :: Input PEscolhaSeis :: Cls :: s)
          tp linhas).
Proof.
  cbv zeta.
  assert (Hs : forall s0,
             salvar_veiculo_json amb (Mundo (id :: resto) s0 tp linhas)
             = (Levanta TypeError,
                Mundo resto
                  (ArquivoIncompleto
                     ("veiculo_" ++ str_de_int n ++ ".json")%string
                     [("id_veiculo", JInt n)] "capacidade"
                   :: Input PIdVeiculoJson :: TabelaVeiculos linhas
                   :: MsgListarVeiculos :: s0)
                  tp linhas)).
  { intros s0.
    pose proof (coluna_de_int64 linhas Hint64) as Hcol.
    destruct (veiculo_de_id_nao_vazia _ _ _ Hr) as (x & linhas' & ->).
    rewrite salvar_veiculo_json_passos. cbv zeta.
    rewrite Hdigitos, Hid, Hr.
    unfold bind at 1. unfold abrir. rewrite Habre. unfold ret at 1.
    unfold bind at 1. unfold json_dump_veiculo. rewrite Hcol.
    reflexivity. }
  split; [apply Hs |].
  rewrite opcao_seis_veiculo. unfold exceto_ValueError. rewrite Hs.
  reflexivity.
Qed.

Lemma exportacao_de_veiculo_interrompida_exemplo :
  let incompleto :=
    ArquivoIncompleto "veiculo_7.json" [("id_veiculo", JInt 7)] "capacidade" in
  salvar_veiculo_json amb_exemplo
    (Mundo ["007"; "x"] [] [] [caminhao_pequeno; caminhao_frio])
  = (Levanta TypeError,
     Mundo ["x"]
       [ incompleto; Input PIdVeiculoJson;
         TabelaVeiculos [caminhao_pequeno; caminhao_frio]; MsgListarVeiculos ]
       [] [caminhao_pequeno; caminhao_frio])
  /\ opcao_seis amb_exemplo
       (Mundo ["2"; "007"; "x"] [] [] [caminhao_pequeno; caminhao_frio])
     = (Levanta TypeError,
        Mundo ["x"]
          [ incompleto; Input PIdVeiculoJson;
            TabelaVeiculos [caminhao_pequeno; caminhao_frio]; MsgListarVeiculos;
            Input PEscolhaSeis; Cls ]
          [] [caminhao_pequeno; caminhao_frio]).
Proof.
  apply (exportacao_de_veiculo_interrompida amb_exemplo
           [caminhao_pequeno; caminhao_frio] caminhao_frio "007" 7 ["x"] [] []).
  - reflexivity.
  - reflexivity.
  - reflexivity.
  - intros v [<- | [<- | []]]; simpl; lia.
  - reflexivity.
Defined.

(** X13. The export of a product writes nothing for a line that is not a
    digit string or whose number identifies no product of the table: it
    prints that the identifier is invalid and returns, the line read. *)
Theorem exportacao_de_produto_com_id_invalido
  (amb : ambiente) (x : Produto.linha) (linhas' : list Produto.linha) (id : string)
  (resto : list string) (s : list evento) (tv : list Veiculo.linha)
  (H : isdigit id = false
       \/ exists n, int_de_str id = Some n
                    /\ ~ In n (map Produto.id_produto (x :: linhas'))) :
  salvar_dados_produtos_json amb (Mundo (id :: resto) s (x :: linhas') tv)
  = (Retorna tt,
     Mundo resto
       (MsgIdProdutoInvalido :: Input PIdProdutoJson :: MsgListados
        :: TabelaProdutos (x :: linhas') :: MsgListarProdutos :: s)
       (x :: linhas') tv).
Proof.
  rewrite salvar_dados_produtos_json_passos. cbv zeta.
  destruct H as [-> | (n & Hn & Hnot)]; [reflexivity |].
  rewrite Hn.
  assert (Ex : existsb (fun l => Produto.id_produto l =? n) (x :: linhas') = false).
  { destruct (existsb _ _) eqn:Ex; [| reflexivity].
    apply existsb_exists in Ex. destruct Ex as (l & Hl & Heq).
    apply Z.eqb_eq in Heq. exfalso. apply Hnot. rewrite <- Heq. now apply in_map. }
  rewrite Ex. destruct (isdigit id); reflexivity.
Qed.

Lemma exportacao_de_produto_com_id_invalido_exemplo :
  salvar_dados_produtos_json amb_exemplo (Mundo ["3"; "x"] [] [soja; leite] [])
  = (Retorna tt,
     Mundo ["x"]
       [ MsgIdProdutoInvalido; Input PIdProdutoJson; MsgListados;
         TabelaProdutos [soja; leite]; MsgListarProdutos ]
       [soja; leite] []).
Proof.
  apply (exportacao_de_produto_com_id_invalido amb_exemplo
           soja [leite] "3" ["x"] [] []).
  right. exists 3. split; [reflexivity |].
  simpl. intros [H | [H | H]]; [discriminate H | discriminate H | exact H].
Defined.

(** X14. Option 6 lets no ValueError out, and raises no IndexError.  The
    ValueError of a choice that is not a number, the one of an identifier
    made of digits that [int] refuses and the one [open] raises are caught
    by the handler of option 6, which raises nothing; and the first
    element of the list of products of the chosen identifier is only taken
    when that list is not empty. *)
Theorem opcao_seis_captura_ValueError
  (amb : ambiente) (w : mundo) (e : excecao) (w' : mundo)
  (H : opcao_seis amb w = (Levanta e, w')) :
  e <> ValueError /\ e <> IndexError.
Proof.
  destruct (disc_opcao_seis amb _ _ _ H) as [_ X].
  destruct (X e eq_refl) as [-> | [-> | ->]]; split; discriminate.
Qed.

Lemma opcao_seis_captura_ValueError_exemplo :
  opcao_seis amb_exemplo (Mundo ["1"] [] [soja] [])
  = (Levanta EOFError,
     Mundo []
       [ Input PIdProdutoJson; MsgListados; TabelaProdutos [soja];
         MsgListarProdutos; Input PEscolhaSeis; Cls ]
       [soja] [])
  /\ EOFError <> ValueError /\ EOFError <> IndexError.
Proof.
  split; [reflexivity |].
  apply (opcao_seis_captura_ValueError amb_exemplo (Mundo ["1"] [] [soja] [])
           EOFError
           (Mundo []
              [ Input PIdProdutoJson; MsgListados; TabelaProdutos [soja];
                MsgListarProdutos; Input PEscolhaSeis; Cls ]
              [soja] [])).
  reflexivity.
Defined.

(** The same identifier that ends the check of option 5 is harmless under
    option 6: the superscript two typed as the product to export is
    answered by the invalid-choice message, and option 6 returns. *)
Remark opcao_seis_com_digito_sobrescrito
  (amb : ambiente) (x : Produto.linha) (linhas' : list Produto.linha)
  (resto : list string) (s : list evento) (tv : list Veiculo.linha) :
  opcao_seis amb (Mundo ("1" :: dois_sobrescrito :: resto) s (x :: linhas') tv)
  = (Retorna tt,
     Mundo resto
       (MsgEscolhaInvalida :: Cls :: Input PIdProdutoJson :: MsgListados
        :: TabelaProdutos (x :: linhas') :: MsgListarProdutos
        :: Input PEscolhaSeis :: Cls :: s)
       (x :: linhas') tv).
Proof.
  unfold opcao_seis, exceto_ValueError.
  unfold bind at 1. unfold emite at 1. unfold bind at 1.
  unfold input_int at 1. unfold bind at 1. unfold input at 1.
  cbn [entrada saida tabela_produtos tabela_veiculos tl].
  change (int_de_str "1") with (Some 1). cbv beta iota. unfold ret at 1.
  change (1 =? 1) with true. change (1 =? 2) with false. cbv beta iota.
  unfold bind at 1.
  rewrite salvar_dados_produtos_json_passos. cbv zeta.
  change (isdigit dois_sobrescrito) with true.
  change (int_de_str dois_sobrescrito) with (@None Z).
  reflexivity.
Qed.

(* ------------------------------------------------------------------ *)
(** ** What the operations leave alone *)

Lemma tabelas_de_snd {A} P E (m : prog A) w :
  disciplinado P true E m ->
  tabela_produtos (snd (m w)) = tabela_produtos w
  /\ tabela_veiculos (snd (m w)) = tabela_veiculos w.
Proof.
  intros Hm. destruct (m w) as [r w'] eqn:H.
  exact (disc_tabelas _ _ _ _ _ _ Hm H).
Qed.

(** X15. The menu, the yes/no prompt, the two listings, the compatibility
    check, the two exports and option 6 only read the tables: however they
    end, the two tables are what they were. *)
Theorem consultas_nao_alteram_as_tabelas (amb : ambiente) (w : mundo) :
  let mesmas (w' : mundo) :=
    tabela_produtos w' = tabela_produtos w
    /\ tabela_veiculos w' = tabela_veiculos w in
  mesmas (snd (menu w))
  /\ (forall p, mesmas (snd (perguntar_sim_nao p w)))
  /\ mesmas (snd (listar_produtos w))
  /\ mesmas (snd (listar_veiculos w))
  /\ mesmas (snd (comparar_veiculo w))
  /\ mesmas (snd (salvar_dados_produtos_json amb w))
  /\ mesmas (snd (salvar_veiculo_json amb w))
  /\ mesmas (snd (opcao_seis amb w)).
Proof.
  cbv zeta.
  split; [exact (tabelas_de_snd _ _ _ w disc_menu) |].
  split; [intros p; exact (tabelas_de_snd _ _ _ w (disc_perguntar_sim_nao p)) |].
  split; [exact (tabelas_de_snd _ _ _ w disc_listar_produtos) |].
  split; [exact (tabelas_de_snd _ _ _ w disc_listar_veiculos) |].
  split; [exact (tabelas_de_snd _ _ _ w disc_comparar_veiculo) |].
  split; [exact (tabelas_de_snd _ _ _ w (disc_salvar_dados_produtos_json amb)) |].
  split; [exact (tabelas_de_snd _ _ _ w (disc_salvar_veiculo_json amb)) |].
  exact (tabelas_de_snd _ _ _ w (disc_opcao_seis amb)).
Qed.

(* ------------------------------------------------------------------ *)
(** ** How the operations end *)

Lemma fim_de_entrada_de {A} P fixas (m : prog A) w :
  regular m ->
  disciplinado P fixas so_EOFError m ->
  retorna_ou_fim_de_entrada (fst (m w)).
Proof.
  intros Hr Hd. destruct (m w) as [r w'] eqn:H.
  destruct (Hr _ _ _ H) as [N _]. destruct (Hd _ _ _ H) as [_ X].
  destruct r as [a | e |]; simpl; [exact I | | now elim N].
  now rewrite (X e eq_refl).
Qed.

(** X16. Nothing typed at the menu, at a yes/no question or in the two
    forms ends the program: each of the four returns, or stops on the end
    of the input.  The ValueError of a line that is no number is caught
    where it is raised, in the menu and in the forms. *)
Theorem perguntas_nao_encerram_o_programa (amb : ambiente) (w : mundo) :
  retorna_ou_fim_de_entrada (fst (menu w))
  /\ (forall p, retorna_ou_fim_de_entrada (fst (perguntar_sim_nao p w)))
  /\ retorna_ou_fim_de_entrada (fst (dados_coletados_produtos amb w))
  /\ retorna_ou_fim_de_entrada (fst (dados_coletados_transporte amb w)).
Proof.
  split; [| split; [intros p | split]].
  - exact (fim_de_entrada_de _ _ _ w (le_regular _ le_menu) disc_menu).
  - exact (fim_de_entrada_de _ _ _ w (le_regular _ (le_perguntar_sim_nao p))
             (disc_perguntar_sim_nao p)).
  - exact (fim_de_entrada_de _ _ _ w
             (le_regular _ (le_dados_coletados_produtos amb))
             (disc_dados_coletados_produtos amb)).
  - exact (fim_de_entrada_de _ _ _ w
             (le_regular _ (le_dados_coletados_transporte amb))
             (disc_dados_coletados_transporte amb)).
Qed.

(** X17. The dispatcher ends by SystemExit through option 7 only: when
    it ends so, the code is 0 and the last things done were clearing the
    screen, the farewell and, the connection being open, closing it. *)
Theorem opcao_escolhida_so_sai_pelo_menu
  (amb : ambiente) (escolha : Z) (w : mundo) (codigo : Z) (w' : mundo)
  (H : opcao_escolhida amb escolha w = (Levanta (SystemExit codigo), w')) :
  codigo = 0
  /\ exists antes,
       saida w'
       = (if conecta amb then [FechaConexao] else [])
         ++ MsgSaindo :: Cls :: Cls :: antes.
Proof.
  unfold opcao_escolhida in H.
  destruct (disc_opcao_escolhida_ate amb (voltas w) escolha _ _ _ H) as [_ X].
  exact (X _ eq_refl codigo eq_refl).
Qed.

Lemma opcao_escolhida_so_sai_pelo_menu_exemplo :
  opcao_escolhida amb_exemplo 3 (Mundo [""; "7"] [] [soja] [])
  = (Levanta (SystemExit 0),
     Mundo []
       [ FechaConexao; MsgSaindo; Cls; Cls; Input PEscolha; MsgMenu; Cls;
         Input PEnter; MsgListados; TabelaProdutos [soja]; MsgListarProdutos;
         Cls ]
       [soja] [])
  /\ 0 = 0
  /\ exists antes,
       [ FechaConexao; MsgSaindo; Cls; Cls; Input PEscolha; MsgMenu; Cls;
         Input PEnter; MsgListados; TabelaProdutos [soja]; MsgListarProdutos;
         Cls ]
       = [FechaConexao] ++ MsgSaindo :: Cls :: Cls :: antes.
Proof.
  split; [reflexivity |].
  apply (opcao_escolhida_so_sai_pelo_menu amb_exemplo 3
           (Mundo [""; "7"] [] [soja] []) 0
           (Mundo []
              [ FechaConexao; MsgSaindo; Cls; Cls; Input PEscolha; MsgMenu; Cls;
                Input PEnter; MsgListados; TabelaProdutos [soja];
                MsgListarProdutos; Cls ]
              [soja] [])).
  reflexivity.
Defined.

(** X18. With the connection open, the main block ends inside the menu
    or the dispatcher, by an exception, and in no run are the cursors
    closed: the closing that follows the dispatcher call is never
    reached. *)
Theorem principal_nunca_fecha_os_cursores
  (amb : ambiente) (w : mundo) (Hc : conecta amb = true) :
  exists e w' novos,
    principal amb w = (Levanta e, w')
    /\ saida w' = novos ++ saida w
    /\ ~ In FechaCursores novos.
Proof.
  assert (Hm : disciplinado evento_do_menu false (fim_do_programa amb)
                 (escolha <- menu ;; opcao_escolhida amb escolha)).
  { apply disc_bind.
    - eapply disc_fraco; [ | | | exact disc_menu]; obrigacao.
    - intros escolha w0 r w1 H. unfold opcao_escolhida in H.
      exact (disc_opcao_escolhida_ate amb (voltas w0) escolha _ _ _ H). }
  assert (Hl : exists e w',
             (escolha <- menu ;; opcao_escolhida amb escolha) w = (Levanta e, w')
             /\ principal amb w = (Levanta e, w')).
  { unfold principal. rewrite Hc. unfold bind at 1 2.
    destruct (menu w) as [[escolha | e |] w1] eqn:Em.
    - unfold bind, opcao_escolhida.
      destruct (opcao_escolhida_ate_levanta amb (voltas w1) escolha w1)
        as (e & w' & ->); [unfold voltas; lia | eauto].
    - eauto.
    - destruct (le_menu _ _ _ Em) as [N _]. now elim N. }
  destruct Hl as (e & w' & Hr & Hp).
  destruct (Hm _ _ _ Hr) as [[(novos & E & F) _] _].
  exists e, w', novos. split; [exact Hp |]. split; [exact E |].
  rewrite Forall_forall in F. intros H. exact (F _ H).
Qed.

Lemma principal_nunca_fecha_os_cursores_exemplo :
  exists e w' novos,
    principal amb_exemplo (Mundo ["3"; ""; "7"] [] [soja] []) = (Levanta e, w')
    /\ saida w' = novos ++ []
    /\ ~ In FechaCursores novos.
Proof.
  apply (principal_nunca_fecha_os_cursores amb_exemplo
           (Mundo ["3"; ""; "7"] [] [soja] [])).
  reflexivity.
Defined.

(* ------------------------------------------------------------------ *)
(** ** More on the loop over the vehicles *)

(** X19. Vehicles added at the end of the list never change a match
    already found: the loop over two lists one after the other gives the
    vehicle found in the first, and looks in the second only when the
    first has none. *)
Theorem comparar_veiculo_laco_app
  (p : Produto.linha) (primeiros ultimos : list Veiculo.linha) :
  comparar_veiculo_laco p (primeiros ++ ultimos)
  = match comparar_veiculo_laco p primeiros with
    | Some v => Some v
    | None => comparar_veiculo_laco p ultimos
    end.
Proof.
  induction primeiros as [| v primeiros IH]; simpl; [reflexivity |].
  destruct (condicoes_atendidas p v); [reflexivity | exact IH].
Qed.

Lemma listar_produtos_entrada w r w1 :
  listar_produtos w = (r, w1) ->
  entrada w1 = entrada w /\ exists o, r = Retorna o.
Proof.
  unfold listar_produtos, consultar_produtos, bind, emite, ret. simpl.
  destruct (tabela_produtos w); intros H; inversion H; subst; simpl; eauto.
Qed.

Lemma comparar_veiculo_ate_ValueError n :
  forall w w',
    comparar_veiculo_ate n w = (Levanta ValueError, w') ->
    exists linha,
      In linha (entrada w) /\ isdigit linha = true /\ int_de_str linha = None.
Proof.
  induction n as [| n IH]; intros w w' H; [discriminate H |].
  cbn [comparar_veiculo_ate] in H.
  unfold bind at 1 in H. unfold consultar_veiculos at 1 in H.
  unfold bind at 1 in H.
  destruct (listar_produtos w) as [r w1] eqn:El.
  destruct (listar_produtos_entrada _ _ _ El) as [Ee [o ->]].
  destruct o as [linhas |]; [| cbv in H; discriminate H].
  unfold bind at 1 in H. unfold input at 1 in H.
  destruct (entrada w1) as [| id resto] eqn:Ew; [discriminate H |].
  rewrite <- Ee.
  destruct (isdigit id) eqn:Ed.
  - destruct (int_de_str id) as [numero |] eqn:Ei.
    + destruct (produto_de_id numero linhas) as [p |].
      * destruct (disc_compara p _ _ _ _ H) as [_ X]. elim (X _ eq_refl).
      * unfold bind, emite in H. apply IH in H. simpl in H.
        destruct H as (l & Hin & Hl). exists l. split; [now right | exact Hl].
    + exists id. split; [now left | auto].
  - unfold bind, emite in H. apply IH in H. simpl in H.
    destruct H as (l & Hin & Hl). exists l. split; [now right | exact Hl].
Qed.

(** X20. The compatibility check ends by returning, on the end of the
    input, or on a ValueError; and it raises the ValueError only when one
    of the lines typed is made of digits and refused by [int]. *)
Theorem comparar_veiculo_so_falha_com_digito_recusado
  (w : mundo) (e : excecao) (w' : mundo)
  (H : comparar_veiculo w = (Levanta e, w')) :
  e = EOFError
  \/ (e = ValueError
      /\ exists linha,
           In linha (entrada w)
           /\ isdigit linha = true /\ int_de_str linha = None).
Proof.
  destruct (disc_comparar_veiculo _ _ _ H) as [_ X].
  destruct (X e eq_refl) as [-> | ->]; [now left | right].
  split; [reflexivity |].
  unfold comparar_veiculo in H.
  exact (comparar_veiculo_ate_ValueError _ _ _ H).
Qed.

Lemma comparar_veiculo_so_falha_com_digito_recusado_exemplo :
  ValueError = EOFError
  \/ (ValueError = ValueError
      /\ exists linha,
           In linha ["x"; dois_sobrescrito; "1"]
           /\ isdigit linha = true /\ int_de_str linha = None).
Proof.
  apply (comparar_veiculo_so_falha_com_digito_recusado
           (Mundo ["x"; dois_sobrescrito; "1"] [] [soja] [caminhao_grande])
           ValueError
           (snd (comparar_veiculo
                   (Mundo ["x"; dois_sobrescrito; "1"] [] [soja]
                      [caminhao_grande])))).
  vm_compute. reflexivity.
Defined.

(* ------------------------------------------------------------------ *)
(** ** The vehicle form, the empty exports and the files *)

Lemma coleta_transporte_aceita amb c z lt t r1 r2 resto s tp tv :
  int_de_str c = Some z ->
  float_de_str amb lt = Some t ->
  palavra_literal (lower r1) -> palavra_literal (lower r2) ->
  coleta_transporte amb (Mundo (c :: lt :: r1 :: r2 :: resto) s tp tv)
  = (Retorna (Some (DadosTransporte z t
                      (sim_ou_nao (lower r1 =? "sim")%string)
                      (sim_ou_nao (lower r2 =? "sim")%string))),
     Mundo resto
       (Input PTemProtecaoSolar :: Input PTemVentilacao
        :: Input PTemperaturaTransporte :: Input PCapacidade :: s) tp tv).
Proof.
  intros Hc Ht H1 H2.
  unfold coleta_transporte, exceto_ValueError.
  unfold bind at 1. unfold input_int at 1. unfold bind at 1. unfold input at 1.
  cbn [entrada saida tabela_produtos tabela_veiculos tl].
  rewrite Hc. unfold ret at 1.
  unfold bind at 1. unfold input_float at 1. unfold bind at 1. unfold input at 1.
  cbn [entrada saida tabela_produtos tabela_veiculos tl].
  rewrite Ht. unfold ret at 1.
  unfold bind at 1. rewrite (perguntar_sim_nao_aceita _ _ _ _ _ _ H1).
  unfold bind at 1. rewrite (perguntar_sim_nao_aceita _ _ _ _ _ _ H2).
  reflexivity.
Qed.

(** X21. The vehicle form takes any integer as the capacity, zero and
    negative ones included: with a capacity [int] reads, a temperature
    [float] reads and two accepted answers, the registration reads exactly
    these four lines, returns the record made of them and hands it to the
    INSERT. *)
Theorem cadastro_de_veiculo_aceito
  (amb : ambiente) (c : string) (z : Z) (lt : string) (t : num)
  (r1 r2 : string) (resto : list string) (s : list evento)
  (tp : list Produto.linha) (tv : list Veiculo.linha)
  (Hc : int_de_str c = Some z)
  (Ht : float_de_str amb lt = Some t)
  (H1 : palavra_literal (lower r1)) (H2 : palavra_literal (lower r2)) :
  let d := DadosTransporte z t
             (sim_ou_nao (lower r1 =? "sim")%string)
             (sim_ou_nao (lower r2 =? "sim")%string) in
  let lido := Input PTemProtecaoSolar :: Input PTemVentilacao
              :: Input PTemperaturaTransporte :: Input PCapacidade :: s in
  dados_coletados_transporte amb (Mundo (c :: lt :: r1 :: r2 :: resto) s tp tv)
  = (Retorna d,
     match inserir_veiculo amb d tv with
     | inr linhas => Mundo resto (MsgDadosGravados :: lido) tp linhas
     | inl mensagem => Mundo resto (MsgErroAoInserir mensagem :: lido) tp tv
     end).
Proof.
  intros d lido. subst d lido.
  unfold dados_coletados_transporte. unfold bind at 1.
  rewrite (enquanto_verdadeiro_sai _ _ _ _
             (coleta_transporte_aceita amb c z lt t r1 r2 resto s tp tv
                Hc Ht H1 H2)).
  unfold bind, grava_transporte, emite, ret.
  cbn [entrada saida tabela_produtos tabela_veiculos].
  destruct (inserir_veiculo amb _ tv); reflexivity.
Qed.

Lemma cadastro_de_veiculo_aceito_exemplo :
  dados_coletados_transporte amb_exemplo
    (Mundo ["-20"; "4"; "Nao"; "sim"; "7"] [] [] [caminhao_pequeno])
  = (Retorna (DadosTransporte (-20) (num_de_Z 4) "NAO" "SIM"),
     Mundo ["7"]
       [ MsgDadosGravados; Input PTemProtecaoSolar; Input PTemVentilacao;
         Input PTemperaturaTransporte; Input PCapacidade ]
       []
       [caminhao_pequeno; Veiculo.Linha 2 (-20) (num_de_Z 4) "NAO" "SIM"]).
Proof.
  apply (cadastro_de_veiculo_aceito amb_exemplo "-20" (-20) "4" (num_de_Z 4)
           "Nao" "sim" ["7"] [] [] [caminhao_pequeno]).
  - reflexivity.
  - reflexivity.
  - right; right; reflexivity.
  - left; reflexivity.
Defined.

(** X22. An export with nothing to export asks nothing: with the table of
    products empty the export of a product, and with the table of vehicles
    empty the export of a vehicle, print the empty listing and that there
    is nothing to save, read no line and return. *)
Theorem exportacoes_sem_linhas
  (amb : ambiente) (linhas_a_digitar : list string) (s : list evento) :
  (forall tv,
     salvar_dados_produtos_json amb (Mundo linhas_a_digitar s [] tv)
     = (Retorna tt,
        Mundo linhas_a_digitar
          (MsgNaoHaProdutosParaSalvar :: MsgNaoHaProdutos
           :: MsgListarProdutos :: s) [] tv))
  /\ (forall tp,
        salvar_veiculo_json amb (Mundo linhas_a_digitar s tp [])
        = (Retorna tt,
           Mundo linhas_a_digitar
             (MsgNaoHaVeiculosParaSalvar :: MsgNaoHaVeiculosCadastrados
              :: MsgListarVeiculos :: s) tp [])).
Proof.
  split; reflexivity.
Qed.

Lemma disc_sair_sem_arquivo amb :
  disciplinado sem_arquivo false qualquer_excecao (emite Cls ;; sair amb).
Proof.
  unfold sair. disciplina.
Qed.

#[local] Hint Resolve disc_sair_sem_arquivo : disciplina.

Lemma disc_despacha_sem_arquivo amb escolha :
  escolha <> 6 ->
  disciplinado sem_arquivo false qualquer_excecao (despacha amb escolha).
Proof.
  intros H. unfold despacha.
  destruct escolha as [| p | p]; [solve [disciplina] | | solve [disciplina]].
  do 3 (try destruct p as [p | p |]); try (now elim H); solve [disciplina].
Qed.

(** X23. Files are written under option 6 only: whatever the choice other
    than 6 and the lines typed, the operation the dispatcher calls for it
    writes no file, to the end or in part. *)
Theorem so_a_opcao_seis_escreve_arquivos
  (amb : ambiente) (escolha : Z) (w : mundo) (H : escolha <> 6) :
  exists novos,
    saida (snd (despacha amb escolha w)) = novos ++ saida w
    /\ (forall nome conteudo, ~ In (EscreveArquivo nome conteudo) novos)
    /\ (forall nome escrito chave,
          ~ In (ArquivoIncompleto nome escrito chave) novos).
Proof.
  destruct (disc_saida _ _ _ _ w (disc_despacha_sem_arquivo amb escolha H))
    as (novos & E & F).
  exists novos. split; [exact E |].
  rewrite Forall_forall in F.
  split; [intros nome conteudo | intros nome escrito chave];
    intros Hin; exact (F _ Hin).
Qed.

Lemma so_a_opcao_seis_escreve_arquivos_exemplo :
  exists novos,
    saida (snd (despacha amb_exemplo 5
                  (Mundo ["1"] [] [soja] [caminhao_grande])))
    = novos ++ []
    /\ (forall nome conteudo, ~ In (EscreveArquivo nome conteudo) novos)
    /\ (forall nome escrito chave,
          ~ In (ArquivoIncompleto nome escrito chave) novos).
Proof.
  apply (so_a_opcao_seis_escreve_arquivos amb_exemplo 5
           (Mundo ["1"] [] [soja] [caminhao_grande])).
  discriminate.
Defined.
